(** * Canon camera MCP server: a shallow embedding and its properties

    The development follows the two source files of the repository.

    - [canon_camera.py]: the class [CanonCamera], a client of the camera's
      CCAPI over HTTP (module [requests]).
    - [server.py]: the image size adapter ([compress_image_to_target_size],
      [resize_and_compress_image]) and the three tools
      ([get_camera_settings], [set_camera_setting], [get_liveview]).

    The camera, reached through [requests], and the imaging library (PIL)
    are collaborators of the program: they appear as interfaces (type
    classes), and every function of the program is written against them.
    Python values are modelled as the code handles them: JSON documents as
    an inductive type, [str] as [string], [bytes] as [list byte], Python
    [float] as IEEE binary64 ([PrimFloat.float]), exceptions as a sum. *)

From Stdlib Require Import ZArith List String Ascii Bool Lia.
From Stdlib Require Import QArith Qabs Floats DecimalString Sorted.
From Stdlib.Strings Require Import Byte.
From Equations Require Import Equations.
Import ListNotations.

Set Warnings "-inexact-float,-register-all".

Local Open Scope string_scope.
Local Open Scope Z_scope.

(* ===================================================================== *)
(** * Python values *)
(* ===================================================================== *)

(** A JSON number is a Python [int] or a Python [float]. *)
Inductive number :=
| PyInt (z : Z)
| PyFloat (f : float).

(** What [response.json()] returns.  [JObj] is a Python [dict]: its items in
    insertion order, with pairwise distinct keys. *)
Inductive json :=
| JNull
| JBool (b : bool)
| JNum (n : number)
| JStr (s : string)
| JArr (items : list json)
| JObj (items : list (string * json)).

(** Exceptions, by the classes the handlers of [server.py] tell apart:
    [requests.exceptions.RequestException] (and its subclasses),
    [ValueError] (and its subclasses), and every other [Exception].  The
    payload is [str(e)]. *)
Inductive exn :=
| RequestException (msg : string)
| ValueError (msg : string)
| OtherException (msg : string).

Definition exn_msg (e : exn) : string :=
  match e with
  | RequestException m | ValueError m | OtherException m => m
  end.

Definition result (A : Type) : Type := exn + A.

(** [repr] of strings and numbers is Python's own; it is a parameter. *)
Class PyRepr := {
  repr_str : string -> string;
  repr_num : number -> string
}.

Section Repr.
Context `{PyRepr}.

Definition join_comma (parts : list string) : string :=
  String.concat ", " parts.

(** [repr(x)] on JSON values: lists as [[a, b]], dicts as [{k: v}]. *)
Fixpoint py_repr (j : json) : string :=
  match j with
  | JNull => "None"
  | JBool true => "True"
  | JBool false => "False"
  | JNum n => repr_num n
  | JStr s => repr_str s
  | JArr items => "[" ++ join_comma (map py_repr items) ++ "]"
  | JObj items =>
      "{" ++ join_comma
               (map (fun kv => repr_str (fst kv) ++ ": " ++ py_repr (snd kv))
                    items) ++ "}"
  end.

(** [str(x)], as an f-string field formats it. *)
Definition py_str (j : json) : string :=
  match j with
  | JStr s => s
  | _ => py_repr j
  end.

(** [repr] of a list of [str], e.g. [valid_settings]. *)
Definition repr_str_list (l : list string) : string :=
  py_repr (JArr (map JStr l)).
End Repr.

(** [x in s] for two strings: [x] occurs in [s]. *)
Fixpoint str_contains (needle hay : string) : bool :=
  if String.prefix needle hay then true
  else match hay with
       | EmptyString => false
       | String _ rest => str_contains needle rest
       end.

Fixpoint dict_get (key : string) (d : list (string * json)) : option json :=
  match d with
  | [] => None
  | (k, v) :: rest => if String.eqb k key then Some v else dict_get key rest
  end.

(** [d[key] = v]: an existing key keeps its place, a new one goes last. *)
Fixpoint dict_set (key : string) (v : json) (d : list (string * json))
  : list (string * json) :=
  match d with
  | [] => [(key, v)]
  | (k, v0) :: rest =>
      if String.eqb k key then (k, v) :: rest
      else (k, v0) :: dict_set key v rest
  end.

(** [x == y] for a [str] [x] and a JSON value [y]. *)
Definition py_eq_str (x : string) (y : json) : bool :=
  match y with
  | JStr s => String.eqb x s
  | _ => false
  end.

(** [x in c] for a [str] [x]: key test on a dict, element test on a list,
    substring test on a str, [TypeError] on the rest. *)
Definition py_in (x : string) (c : json) : result bool :=
  match c with
  | JObj d => inr (match dict_get x d with Some _ => true | None => false end)
  | JArr items => inr (existsb (py_eq_str x) items)
  | JStr s => inr (str_contains x s)
  | _ => inl (OtherException "argument is not iterable")
  end.

(** [c[key]] for a [str] key. *)
Definition py_getitem (c : json) (key : string) : result json :=
  match c with
  | JObj d =>
      match dict_get key d with
      | Some v => inr v
      | None => inl (OtherException key)
      end
  | JArr _ => inl (OtherException "list indices must be integers or slices, not str")
  | JStr _ => inl (OtherException "string indices must be integers")
  | _ => inl (OtherException "object is not subscriptable")
  end.

(** [c[key] = v]. *)
Definition py_setitem (c : json) (key : string) (v : json) : result json :=
  match c with
  | JObj d => inr (JObj (dict_set key v d))
  | JArr _ => inl (OtherException "list indices must be integers or slices, not str")
  | _ => inl (OtherException "object does not support item assignment")
  end.

(** [c.get(key)]: a method of dicts only. *)
Definition py_get (c : json) (key : string) : result json :=
  match c with
  | JObj d => inr (match dict_get key d with Some v => v | None => JNull end)
  | _ => inl (OtherException "object has no attribute 'get'")
  end.

(** [str(n)] for an [int]. *)
Definition str_of_int (z : Z) : string :=
  NilZero.string_of_int (Z.to_int z).

(* ===================================================================== *)
(** * The HTTP collaborator ([requests]) *)
(* ===================================================================== *)

Inductive method := GET | PUT | POST.

(** One call of [requests.get], [requests.put] or [requests.post], with the
    keyword arguments the program passes.  [req_timeout = None] is a call
    without [timeout=]. *)
Record request := {
  req_method : method;
  req_url : string;
  req_json : option json;
  req_timeout : option Z;
  req_stream : bool
}.

(** A [requests.Response]: [resp_json] is what [.json()] does on it. *)
Record response := {
  status_code : Z;
  reason : string;
  resp_url : string;
  content : list byte;
  resp_json : result json
}.

(** The camera: how it answers a request in a device state, and the state it
    is in afterwards.  [inl e] is the exception [requests] raises
    (connection refused, timeout, ...). *)
Class Camera (D : Type) := {
  handle : request -> D -> result response * D
}.

(** The world a call runs in: the device and the log of the requests made. *)
Record world (D : Type) := {
  dev : D;
  trace : list request
}.
Arguments dev {D} _.
Arguments trace {D} _.

(** ** State and exception monad *)

Definition M (D A : Type) : Type := world D -> result A * world D.

Definition ret {D A} (a : A) : M D A := fun w => (inr a, w).

Definition raise {D A} (e : exn) : M D A := fun w => (inl e, w).

Definition bind {D A B} (m : M D A) (k : A -> M D B) : M D B :=
  fun w =>
    match m w with
    | (inr a, w') => k a w'
    | (inl e, w') => (inl e, w')
    end.

Definition lift {D A} (r : result A) : M D A :=
  match r with
  | inr a => ret a
  | inl e => raise e
  end.

Declare Scope py_scope.
Delimit Scope py_scope with py.
Notation "x <- m ;; k" := (bind m (fun x => k))
  (at level 61, m at next level, right associativity) : py_scope.
Notation "m ;;; k" := (bind m (fun _ => k))
  (at level 61, right associativity) : py_scope.
Local Open Scope py_scope.

Section Requests.
Context {D : Type} `{Camera D}.

(** Issue a request: the device answers and the request is logged. *)
Definition http (r : request) : M D response :=
  fun w =>
    let (res, d') := handle r (dev w) in
    (res, {| dev := d'; trace := trace w ++ [r] |}).

Definition requests_get (url : string) (stream : bool) (timeout : option Z)
  : M D response :=
  http {| req_method := GET; req_url := url; req_json := None;
          req_timeout := timeout; req_stream := stream |}.

Definition requests_put (url : string) (data : json) (timeout : option Z)
  : M D response :=
  http {| req_method := PUT; req_url := url; req_json := Some data;
          req_timeout := timeout; req_stream := false |}.

Definition requests_post (url : string) (data : json) (timeout : option Z)
  : M D response :=
  http {| req_method := POST; req_url := url; req_json := Some data;
          req_timeout := timeout; req_stream := false |}.

(** [Response.raise_for_status]: an [HTTPError] for 4xx and 5xx. *)
Definition http_error_msg (r : response) : string :=
  str_of_int (status_code r)
  ++ (if status_code r <? 500 then " Client Error: " else " Server Error: ")
  ++ reason r ++ " for url: " ++ resp_url r.

Definition is_error_status (r : response) : bool :=
  (400 <=? status_code r) && (status_code r <? 600).

Definition raise_for_status (r : response) : M D unit :=
  if is_error_status r then raise (RequestException (http_error_msg r))
  else ret tt.
End Requests.

(* ===================================================================== *)
(** * canon_camera.py *)
(* ===================================================================== *)

Record CanonCamera := {
  ip : option string;
  port : Z;
  base_url : string
}.

(** [__init__]: [ip or os.environ.get("CANON_IP", None)]. *)
Definition CanonCamera_init (ip_arg : option string) (port_arg : Z)
    (env_CANON_IP : option string) : CanonCamera :=
  let ip' := match ip_arg with
             | Some "" | None => env_CANON_IP
             | Some s => Some s
             end in
  {| ip := ip';
     port := port_arg;
     base_url := "http://" ++ match ip' with Some s => s | None => "None" end
                 ++ ":" ++ str_of_int port_arg |}.

Definition settings_path : string := "/ccapi/ver100/shooting/settings".

Section Client.
Context {D : Type} `{Camera D} `{PyRepr}.
Variable self : CanonCamera.

Definition _get (path : string) : M D response :=
  let url := base_url self ++ path in
  response <- requests_get url false (Some 10) ;;
  raise_for_status response ;;;
  ret response.

Definition _put (path : string) (data : json) : M D response :=
  let url := base_url self ++ path in
  response <- requests_put url data (Some 10) ;;
  raise_for_status response ;;;
  ret response.

Definition get_all_settings : M D json :=
  response <- _get settings_path ;;
  lift (resp_json response).

Definition get_setting (setting_name : string) : M D json :=
  response <- _get (settings_path ++ "/" ++ setting_name) ;;
  lift (resp_json response).

Definition invalid_value_msg (value setting_name : string) (ability : json)
  : string :=
  "Invalid value '" ++ value ++ "' for " ++ setting_name ++ ". "
  ++ "Available options: " ++ py_str ability.

(** The test [["ability" in current and value not in current["ability"]]],
    with the short circuit of [and]. *)
Definition value_rejected (current : json) (value : string) : result bool :=
  match py_in "ability" current with
  | inl e => inl e
  | inr false => inr false
  | inr true =>
      match py_getitem current "ability" with
      | inl e => inl e
      | inr ability =>
          match py_in value ability with
          | inl e => inl e
          | inr b => inr (negb b)
          end
      end
  end.

Definition set_setting (setting_name value : string) : M D json :=
  current <- get_setting setting_name ;;
  rejected <- lift (value_rejected current value) ;;
  if (rejected : bool) then
    ability <- lift (py_getitem current "ability") ;;
    raise (ValueError (invalid_value_msg value setting_name ability))
  else
    response <- _put (settings_path ++ "/" ++ setting_name)
                     (JObj [("value", JStr value)]) ;;
    raise_for_status response ;;;
    previous <- lift (py_get current "value") ;;
    ret (JObj [("setting", JStr setting_name);
               ("previous_value", previous);
               ("new_value", JStr value);
               ("success", JBool true)]).

(** [try: ... except Exception: log; raise] leaves the outcome as it is. *)
Definition init_live_view (liveviewsize cameradisplay : string) : M D Z :=
  let url := base_url self ++ "/ccapi/ver100/shooting/liveview/" in
  let body := JObj [("liveviewsize", JStr liveviewsize);
                    ("cameradisplay", JStr cameradisplay)] in
  res <- requests_post url body None ;;
  ret (status_code res).
End Client.

(* ===================================================================== *)
(** * Base64 ([base64.b64encode], [base64.b64decode]) *)
(* ===================================================================== *)

Definition Z_of_byte (b : byte) : Z := Z.of_N (Byte.to_N b).

(** Store into an [unsigned char]: the low eight bits. *)
Definition byte_of_Z (z : Z) : byte :=
  match Byte.of_N (Z.to_N (Z.land z 255)) with
  | Some b => b
  | None => x00
  end.

Definition b64_alphabet : string :=
  "ABCDEFGHIJKLMNOPQRSTUVWXYZabcdefghijklmnopqrstuvwxyz0123456789+/".

Definition BASE64_PAD : ascii := "="%char.

Definition table_b2a_base64 (n : Z) : ascii :=
  match String.get (Z.to_nat n) b64_alphabet with
  | Some c => c
  | None => BASE64_PAD
  end.

Fixpoint index_from (c : ascii) (s : string) (i : Z) : option Z :=
  match s with
  | EmptyString => None
  | String c' rest => if Ascii.eqb c c' then Some i else index_from c rest (i + 1)
  end.

(** The six-bit value of a character of the alphabet, [None] for any other
    character. *)
Definition table_a2b_base64 (c : ascii) : option Z :=
  index_from c b64_alphabet 0.

(** [binascii.b2a_base64(data, newline=False)]: three bytes give four
    characters, the last group is padded with [=]. *)
Fixpoint b2a_base64 (data : list byte) : string :=
  match data with
  | [] => EmptyString
  | [a] =>
      let a := Z_of_byte a in
      String (table_b2a_base64 (Z.shiftr a 2))
        (String (table_b2a_base64 (Z.shiftl (Z.land a 3) 4))
           (String BASE64_PAD (String BASE64_PAD EmptyString)))
  | [a; b] =>
      let a := Z_of_byte a in
      let b := Z_of_byte b in
      String (table_b2a_base64 (Z.shiftr a 2))
        (String (table_b2a_base64 (Z.lor (Z.shiftl (Z.land a 3) 4) (Z.shiftr b 4)))
           (String (table_b2a_base64 (Z.shiftl (Z.land b 15) 2))
              (String BASE64_PAD EmptyString)))
  | a :: b :: c :: rest =>
      let a := Z_of_byte a in
      let b := Z_of_byte b in
      let c := Z_of_byte c in
      String (table_b2a_base64 (Z.shiftr a 2))
        (String (table_b2a_base64 (Z.lor (Z.shiftl (Z.land a 3) 4) (Z.shiftr b 4)))
           (String (table_b2a_base64 (Z.lor (Z.shiftl (Z.land b 15) 2) (Z.shiftr c 6)))
              (String (table_b2a_base64 (Z.land c 63))
                 (b2a_base64 rest))))
  end.

(** [base64.b64encode(s).decode('utf-8')]: the encoding is ASCII, so the
    text has one character per byte. *)
Definition b64encode_text (s : list byte) : string := b2a_base64 s.

(** [binascii.a2b_base64(data)] without strict mode: characters outside the
    alphabet are skipped, a complete run of padding ends the input, and
    left-over characters of an incomplete group are an error
    ([binascii.Error], a [ValueError]). *)
Fixpoint a2b_base64_loop (ascii_data : string) (quad_pos leftchar pads : Z)
    (bin_data : list byte) : result (list byte) :=
  match ascii_data with
  | EmptyString =>
      if quad_pos =? 0 then inr bin_data
      else if quad_pos =? 1 then
        inl (ValueError "Invalid base64-encoded string: number of data characters cannot be 1 more than a multiple of 4")
      else inl (ValueError "Incorrect padding")
  | String this_ch rest =>
      if Ascii.eqb this_ch BASE64_PAD then
        if 2 <=? quad_pos then
          if 4 <=? quad_pos + (pads + 1) then inr bin_data
          else a2b_base64_loop rest quad_pos leftchar (pads + 1) bin_data
        else a2b_base64_loop rest quad_pos leftchar pads bin_data
      else
        match table_a2b_base64 this_ch with
        | None => a2b_base64_loop rest quad_pos leftchar pads bin_data
        | Some v =>
            if quad_pos =? 0 then
              a2b_base64_loop rest 1 v 0 bin_data
            else if quad_pos =? 1 then
              a2b_base64_loop rest 2 (Z.land v 15) 0
                (bin_data ++ [byte_of_Z (Z.lor (Z.shiftl leftchar 2) (Z.shiftr v 4))])
            else if quad_pos =? 2 then
              a2b_base64_loop rest 3 (Z.land v 3) 0
                (bin_data ++ [byte_of_Z (Z.lor (Z.shiftl leftchar 4) (Z.shiftr v 2))])
            else
              a2b_base64_loop rest 0 0 0
                (bin_data ++ [byte_of_Z (Z.lor (Z.shiftl leftchar 6) v)])
        end
  end.

Definition a2b_base64 (ascii_data : string) : result (list byte) :=
  a2b_base64_loop ascii_data 0 0 0 [].

Fixpoint is_ascii_text (s : string) : bool :=
  match s with
  | EmptyString => true
  | String c rest => (N_of_ascii c <? 128)%N && is_ascii_text rest
  end.

(** [base64.b64decode(s)] on a [str]: the text must be ASCII. *)
Definition b64decode (s : string) : result (list byte) :=
  if is_ascii_text s then a2b_base64 s
  else inl (ValueError "string argument should contain only ASCII characters").

Section LiveViewClient.
Context {D : Type} `{Camera D}.
Variable self : CanonCamera.

Definition liveview_flip_url : string :=
  base_url self ++ "/ccapi/ver100/shooting/liveview/flip".

Definition get_liveview_image : M D string :=
  response <- requests_get liveview_flip_url true (Some 15) ;;
  raise_for_status response ;;;
  ret (b64encode_text (content response) ++ String "010"%char EmptyString).
End LiveViewClient.

(* ===================================================================== *)
(** * Python floats *)
(* ===================================================================== *)

(** [float(n)] for an [int], rounded to the nearest binary64 value. *)
Definition float_of_int (z : Z) : float :=
  SF2Prim (binary_normalize prec emax z 0 false).

(** [int(x)] for a [float]: truncation towards zero, an error on
    infinities and NaN. *)
Definition int_of_float (x : float) : result Z :=
  match Prim2SF x with
  | S754_zero _ => inr 0
  | S754_finite s m e =>
      let v := if 0 <=? e then Z.shiftl (Z.pos m) e else Z.shiftr (Z.pos m) (- e) in
      inr (if s then - v else v)
  | S754_infinity _ => inl (OtherException "cannot convert float infinity to integer")
  | S754_nan => inl (ValueError "cannot convert float NaN to integer")
  end.

(** [int(n * x)] for an [int] [n] and a [float] [x]. *)
Definition int_of_scaled (n : Z) (x : float) : result Z :=
  int_of_float (float_of_int n * x)%float.

(* ===================================================================== *)
(** * The imaging collaborator (PIL) *)
(* ===================================================================== *)

(** The calls the program makes on PIL images.  [save_jpeg img q] is
    [img.save(buf, format="JPEG", quality=q, optimize=True)] and [save_png img]
    is [img.save(buf, format="PNG", optimize=True)], both giving the bytes
    written; [image_resize] resamples with LANCZOS.  Apart from [image_open]
    the calls are taken to return. *)
Class PIL (image : Type) := {
  image_open : list byte -> result image;
  image_size : image -> Z * Z;
  image_mode : image -> string;
  image_convert : image -> string -> image;
  image_resize : image -> Z * Z -> image;
  save_jpeg : image -> Z -> list byte;
  save_png : image -> list byte
}.

Definition upper_ascii (c : ascii) : ascii :=
  let n := N_of_ascii c in
  if ((97 <=? n) && (n <=? 122))%N then ascii_of_N (n - 32) else c.

(** [s.upper()]. *)
Fixpoint upper (s : string) : string :=
  match s with
  | EmptyString => EmptyString
  | String c rest => String (upper_ascii c) (upper rest)
  end.

Definition min_quality : Z := 10.

Section ImageSizeAdapter.
Context {image : Type} `{PIL image}.

Definition is_jpeg (format : string) : bool :=
  String.eqb (upper format) "JPEG".

(** The [if]/[else] around [save] in both loops; [img_byte_arr.getvalue()]
    afterwards. *)
Definition save (img : image) (format : string) (quality : Z) : list byte :=
  if is_jpeg format then save_jpeg img quality else save_png img.

(** [img_byte_arr.tell()] after the save: the number of bytes written. *)
Definition tell (buf : list byte) : Z := Z.of_nat (List.length buf).

(** [img_size <= target_size_bytes]; the budget is an [int] or a [float]. *)
Definition within_budget (buf : list byte) (target_size_bytes : Q) : bool :=
  Qle_bool (inject_Z (tell buf)) target_size_bytes.

(** The resize loop of [resize_and_compress_image].  [img_byte_arr] is the
    buffer of the previous iteration, [None] before the first one.  The
    outer [None] is a loop that was cut short by [fuel]. *)
Fixpoint resize_loop (fuel : nat) (pil_img : image)
    (original_width original_height : Z) (target_size_bytes : Q)
    (format : string) (scale_factor : float)
    (img_byte_arr : option (list byte)) : option (result (list byte)) :=
  match fuel with
  | O => None
  | S fuel' =>
      if PrimFloat.ltb 0.1 scale_factor then
        match int_of_scaled original_width scale_factor with
        | inl e => Some (inl e)
        | inr new_width =>
            match int_of_scaled original_height scale_factor with
            | inl e => Some (inl e)
            | inr new_height =>
                let resized_img := image_resize pil_img (new_width, new_height) in
                let buf := save resized_img format 75 in
                if within_budget buf target_size_bytes then Some (inr buf)
                else resize_loop fuel' pil_img original_width original_height
                       target_size_bytes format (scale_factor - 0.1)%float
                       (Some buf)
            end
        end
      else
        match img_byte_arr with
        | Some buf => Some (inr buf)
        | None => Some (inl (OtherException "'NoneType' object has no attribute 'getvalue'"))
        end
  end.

(** Iterations that are always enough for the loop from [0.9]. *)
Definition resize_fuel : nat := 16.

Definition resize_and_compress_image (pil_img : image)
    (target_size_bytes : Q) (format : string) : option (result (list byte)) :=
  let '(original_width, original_height) := image_size pil_img in
  resize_loop resize_fuel pil_img original_width original_height
    target_size_bytes format 0.9%float None.

(** The quality loop of [compress_image_to_target_size]: [Some buf] when an
    iteration returns [buf], [None] when the loop ends. *)
Equations? quality_loop (pil_img : image) (target_size_bytes : Q)
    (format : string) (quality : Z) : option (list byte)
    by wf (Z.to_nat (quality - min_quality + 5)) lt :=
  quality_loop pil_img target_size_bytes format quality
    with Z_le_gt_dec min_quality quality => {
    | right _ => None
    | left _ with within_budget (save pil_img format quality) target_size_bytes => {
      | true => Some (save pil_img format quality)
      | false => quality_loop pil_img target_size_bytes format (quality - 5) } }.
Proof. unfold min_quality in *. lia. Qed.

(** The conversion before the loop: JPEG cannot hold transparency. *)
Definition prepare (pil_img : image) (format : string) : image :=
  if is_jpeg format
     && (String.eqb (image_mode pil_img) "RGBA"
         || String.eqb (image_mode pil_img) "P")
  then image_convert pil_img "RGB"
  else pil_img.

Definition compress_image_to_target_size (pil_img : image)
    (target_size_mb : Q) (format : string) : option (result (list byte)) :=
  let target_size_bytes := (target_size_mb * 1024 * 1024)%Q in
  let pil_img := prepare pil_img format in
  match quality_loop pil_img target_size_bytes format 95 with
  | Some buf => Some (inr buf)
  | None => resize_and_compress_image pil_img target_size_bytes format
  end.
End ImageSizeAdapter.

(* ===================================================================== *)
(** * server.py: the tools *)
(* ===================================================================== *)

(** The [str] a tool returns: [json.dumps(j, indent=2)], kept as the value
    that is serialised. *)
Inductive text :=
| json_dumps (j : json).

(** The error record every handler builds. *)
Definition error_record (kind message : string) : json :=
  JObj [("success", JBool false);
        ("error", JStr kind);
        ("message", JStr message)].

(** The [except] clauses of [get_camera_settings] and [set_camera_setting],
    in their order. *)
Definition settings_handlers (e : exn) : text :=
  match e with
  | RequestException m =>
      json_dumps (error_record "camera_communication_error"
                    ("Failed to communicate with camera: " ++ m))
  | ValueError m => json_dumps (error_record "invalid_parameter" m)
  | OtherException m =>
      json_dumps (error_record "internal_error" ("Unexpected error: " ++ m))
  end.

(** The [except] clauses of [get_liveview]: no clause for [ValueError]. *)
Definition liveview_handlers (e : exn) : text :=
  match e with
  | RequestException m =>
      json_dumps (error_record "camera_communication_error"
                    ("Failed to communicate with camera: " ++ m))
  | ValueError m | OtherException m =>
      json_dumps (error_record "internal_error" ("Unexpected error: " ++ m))
  end.

Definition keys_to_keep : list string := ["av"; "tv"; "iso"; "shootingmodedial"].

(** [valid_settings] of [get_camera_settings]. *)
Definition valid_settings_read : list string :=
  ["av"; "tv"; "iso"; "shootingmodedial"].

(** [valid_settings] of [set_camera_setting]. *)
Definition valid_settings_write : list string := ["av"; "tv"; "iso"].

(** [x in l] for a [str] and a list of [str]. *)
Definition str_in_list (x : string) (l : list string) : bool :=
  existsb (String.eqb x) l.

(** [{key: result[key] for key in keys if key in result}], filling [acc]. *)
Fixpoint dict_comprehension (keys : list string) (result : json)
    (acc : list (string * json)) : exn + list (string * json) :=
  match keys with
  | [] => inr acc
  | key :: rest =>
      match py_in key result with
      | inl e => inl e
      | inr false => dict_comprehension rest result acc
      | inr true =>
          match py_getitem result key with
          | inl e => inl e
          | inr v => dict_comprehension rest result (dict_set key v acc)
          end
      end
  end.

Section Tools.
Context {D : Type} `{Camera D} `{PyRepr}.
Variable camera : CanonCamera.

Definition invalid_setting_msg (setting : string) (valid : list string)
  : string :=
  "Invalid setting '" ++ setting ++ "'. Valid options: " ++ repr_str_list valid.

(** The [try] block of [get_camera_settings]. *)
Definition get_camera_settings_try (setting : string) : M D text :=
  if String.eqb setting "all" then
    result <- get_all_settings camera ;;
    result <- lift (dict_comprehension keys_to_keep result []) ;;
    ret (json_dumps (JObj result))
  else
    if negb (str_in_list setting valid_settings_read) then
      raise (ValueError (invalid_setting_msg setting valid_settings_read))
    else
      result <- get_setting camera setting ;;
      result <- lift (py_setitem result "setting_name" (JStr setting)) ;;
      ret (json_dumps result).

Definition get_camera_settings (setting : string) (w : world D)
  : text * world D :=
  match get_camera_settings_try setting w with
  | (inr res, w') => (res, w')
  | (inl e, w') => (settings_handlers e, w')
  end.

(** The [try] block of [set_camera_setting]; [not value] is [value == ""]. *)
Definition set_camera_setting_try (setting value : string) : M D text :=
  if negb (str_in_list setting valid_settings_write) then
    raise (ValueError (invalid_setting_msg setting valid_settings_write))
  else if String.eqb value "" then
    raise (ValueError "Value is required")
  else
    result <- set_setting camera setting value ;;
    ret (json_dumps result).

Definition set_camera_setting (setting value : string) (w : world D)
  : text * world D :=
  match set_camera_setting_try setting value w with
  | (inr res, w') => (res, w')
  | (inl e, w') => (settings_handlers e, w')
  end.
End Tools.

(** What [get_liveview] returns: an [Image] or an error text. *)
Inductive liveview_output :=
| Image (data : list byte) (format : string)
| ErrorText (t : text).

Section LiveViewTool.
Context {D : Type} `{Camera D} {image : Type} `{PIL image}.
Variable camera : CanonCamera.

(** The [try] block of [get_liveview]; the outer [None] is the resize loop
    cut short by its fuel. *)
Definition get_liveview_try : M D (option (list byte)) :=
  image_data_b64 <- get_liveview_image camera ;;
  image_data_bytes <- lift (b64decode image_data_b64) ;;
  pil_img <- lift (image_open image_data_bytes) ;;
  match compress_image_to_target_size pil_img 1 "JPEG" with
  | None => ret None
  | Some r => compressed_img_bytes <- lift r ;; ret (Some compressed_img_bytes)
  end.

Definition get_liveview (w : world D) : option liveview_output * world D :=
  match get_liveview_try w with
  | (inr (Some data), w') => (Some (Image data "jpeg"), w')
  | (inr None, w') => (None, w')
  | (inl e, w') => (Some (ErrorText (liveview_handlers e)), w')
  end.
End LiveViewTool.

(* ===================================================================== *)
(** * The requests the client sends *)
(* ===================================================================== *)

(** The call [_get] makes for a path. *)
Definition get_request (self : CanonCamera) (path : string) : request :=
  {| req_method := GET; req_url := base_url self ++ path; req_json := None;
     req_timeout := Some 10; req_stream := false |}.

(** The read of one setting. *)
Definition setting_read (self : CanonCamera) (setting_name : string) : request :=
  get_request self (settings_path ++ "/" ++ setting_name).

(** The call [_put] makes for a path and a body. *)
Definition put_request (self : CanonCamera) (path : string) (data : json)
  : request :=
  {| req_method := PUT; req_url := base_url self ++ path; req_json := Some data;
     req_timeout := Some 10; req_stream := false |}.

(** The write of one setting. *)
Definition setting_write (self : CanonCamera) (setting_name value : string)
  : request :=
  put_request self (settings_path ++ "/" ++ setting_name)
    (JObj [("value", JStr value)]).

(** The fetch of a live-view frame. *)
Definition liveview_fetch (self : CanonCamera) : request :=
  {| req_method := GET; req_url := liveview_flip_url self; req_json := None;
     req_timeout := Some 15; req_stream := true |}.

(** The record [set_setting] returns. *)
Definition update_record (setting_name : string) (previous : json)
    (value : string) : json :=
  JObj [("setting", JStr setting_name);
        ("previous_value", previous);
        ("new_value", JStr value);
        ("success", JBool true)].

(** [current.get("value")] on a dict. *)
Definition reported_value (current : list (string * json)) : json :=
  match dict_get "value" current with
  | Some v => v
  | None => JNull
  end.

Definition is_write (r : request) : bool :=
  match req_method r with
  | PUT => true
  | _ => false
  end.

(** The entries of a projection: the keys of [keys] that [doc] has, each with
    its value in [doc], in the order of [keys]. *)
Fixpoint project (keys : list string) (doc : list (string * json))
  : list (string * json) :=
  match keys with
  | [] => []
  | key :: rest =>
      match dict_get key doc with
      | Some v => (key, v) :: project rest doc
      | None => project rest doc
      end
  end.

(* ===================================================================== *)
(** * A stub camera, a stub imaging library *)
(* ===================================================================== *)

Module Stub.

(** A camera with one setting record, which every read returns and every
    write updates, and one live-view frame. *)
Record device := {
  setting_record : list (string * json);
  frame : list byte
}.

Definition ok (r : request) (body : json) (bytes : list byte) : response :=
  {| status_code := 200; reason := "OK"; resp_url := req_url r;
     content := bytes; resp_json := inr body |}.

Definition answer (r : request) (d : device) : result response * device :=
  match req_method r with
  | GET =>
      if req_stream r then
        (inr {| status_code := 200; reason := "OK"; resp_url := req_url r;
                content := frame d;
                resp_json := inl (RequestException "Expecting value") |}, d)
      else (inr (ok r (JObj (setting_record d)) []), d)
  | PUT =>
      match req_json r with
      | Some (JObj [(_, v)]) =>
          (inr (ok r (JObj [("value", v)]) []),
           {| setting_record := dict_set "value" v (setting_record d);
              frame := frame d |})
      | _ => (inr {| status_code := 400; reason := "Bad Request";
                     resp_url := req_url r; content := [];
                     resp_json := inr JNull |}, d)
      end
  | POST => (inr (ok r (JObj []) []), d)
  end.

Definition camera_stub : Camera device := {| handle := answer |}.

(** [repr] of plain strings and of ints. *)
Definition repr_stub : PyRepr :=
  {| repr_str := fun s => "'" ++ s ++ "'";
     repr_num := fun n => match n with
                          | PyInt z => str_of_int z
                          | PyFloat _ => "nan"
                          end |}.

Definition iso_record : list (string * json) :=
  [("value", JStr "100"); ("ability", JArr [JStr "100"; JStr "200"; JStr "400"])].

Definition no_ability_record : list (string * json) :=
  [("value", JStr "auto")].

Definition cam : CanonCamera := CanonCamera_init (Some "192.168.1.2") 8080 None.

Definition start (rec : list (string * json)) : world device :=
  {| dev := {| setting_record := rec; frame := ["137"%byte; "080"%byte] |};
     trace := [] |}.

End Stub.

(* ===================================================================== *)
(** * Vocabulary of the statements *)
(* ===================================================================== *)

Section WorldVocabulary.
Context {D : Type} `{Camera D}.

(** After a request the world holds the device's next state and one more
    entry in the log. *)
Definition after (w : world D) (d' : D) (sent : list request) : world D :=
  {| dev := d'; trace := trace w ++ sent |}.

(** A read that the camera answers with a JSON document. *)
Definition answers (r : request) (w : world D) (doc : json) (d' : D) : Prop :=
  exists resp,
    handle r (dev w) = (inr resp, d')
    /\ is_error_status resp = false
    /\ resp_json resp = inr doc.
End WorldVocabulary.

(** The document of the scenario of [get_camera_settings("all")]. *)
Definition scenario_document : list (string * json) :=
  [("av", JObj [("value", JStr "5.6");
                ("ability", JArr [JStr "4.0"; JStr "5.6"; JStr "8.0"])]);
   ("extra_field", JObj [])].

(** ** Base64 *)

(** Every byte, for checks by enumeration. *)
Definition all_bytes : list byte :=
  map (fun n => byte_of_Z (Z.of_nat n)) (seq 0 256).

(** Every six-bit value. *)
Definition sextets : list Z := map Z.of_nat (seq 0 64).

(** The four six-bit values of a group of three bytes. *)
Definition sextet1 (a : byte) : Z := Z.shiftr (Z_of_byte a) 2.
Definition sextet2 (a b : byte) : Z :=
  Z.lor (Z.shiftl (Z.land (Z_of_byte a) 3) 4) (Z.shiftr (Z_of_byte b) 4).
Definition sextet3 (b c : byte) : Z :=
  Z.lor (Z.shiftl (Z.land (Z_of_byte b) 15) 2) (Z.shiftr (Z_of_byte c) 6).
Definition sextet4 (c : byte) : Z := Z.land (Z_of_byte c) 63.
(** The last character of a group of one byte, of a group of two bytes. *)
Definition sextet2_last (a : byte) : Z := Z.shiftl (Z.land (Z_of_byte a) 3) 4.
Definition sextet3_last (b : byte) : Z := Z.shiftl (Z.land (Z_of_byte b) 15) 2.

Definition is_sextet (n : Z) : bool := (0 <=? n) && (n <? 64).

Definition b64char (n : Z) (rest : string) : string :=
  String (table_b2a_base64 n) rest.

Definition newline : string := String "010"%char EmptyString.

(** ** The image size adapter *)

(** The qualities of the first phase, in the order they are tried. *)
Definition quality_grid : list Z :=
  [95; 90; 85; 80; 75; 70; 65; 60; 55; 50; 45; 40; 35; 30; 25; 20; 15; 10].

(** [n] values from [q] down, five apart. *)
Fixpoint grid_down (n : nat) (q : Z) : list Z :=
  match n with
  | O => []
  | S k => q :: grid_down k (q - 5)
  end.

(** [n] values from [s] down, each the previous one minus [0.1] in binary64
    arithmetic, and the value that follows them. *)
Fixpoint scales_from (n : nat) (s : float) : list float :=
  match n with
  | O => []
  | S k => s :: scales_from k (s - 0.1)%float
  end.

Fixpoint scale_after (n : nat) (s : float) : float :=
  match n with
  | O => s
  | S k => scale_after k (s - 0.1)%float
  end.

(** The scale factors of the second phase, in the order they are tried. *)
Definition resize_scales : list float := scales_from 9 0.9%float.



(** The sizes [(int(w * s), int(h * s))] for the scale factors [scales]. *)
Fixpoint scaled_sizes (size : Z * Z) (scales : list float) : result (list (Z * Z)) :=
  match scales with
  | [] => inr []
  | s :: rest =>
      match int_of_scaled (fst size) s with
      | inl e => inl e
      | inr new_width =>
          match int_of_scaled (snd size) s with
          | inl e => inl e
          | inr new_height =>
              match scaled_sizes size rest with
              | inl e => inl e
              | inr sizes => inr ((new_width, new_height) :: sizes)
              end
          end
      end
  end.

(** The tenths that the scale factors stand for. *)
Definition tenths : list Z := [9; 8; 7; 6; 5; 4; 3; 2; 1].

(** [int(n * s)] is [n * k / 10], rounded down. *)
Definition scaled_is_tenths (n : Z) (p : float * Z) : bool :=
  match int_of_scaled n (fst p) with
  | inr m => m =? n * snd p / 10
  | inl _ => false
  end.

(** [f] holds of [0], ..., [n - 1]. *)
Fixpoint all_below (n : nat) (f : Z -> bool) : bool :=
  match n with
  | O => true
  | S k => f (Z.of_nat k) && all_below k f
  end.

(** Sides for which the scaled sizes are checked by enumeration. *)
Definition checked_sides : nat := Nat.pow 2 12.

Section AdapterVocabulary.
Context {image : Type} `{PIL image}.

(** The first encoding within budget among the qualities [qs], in order. *)
Definition first_fit (img : image) (budget : Q) (format : string)
    (qs : list Z) : option (list byte) :=
  option_map (save img format)
    (find (fun q => within_budget (save img format q) budget) qs).

(** The buffers of the second phase: the frame resized to each size and
    saved at quality 75 (JPEG) or as PNG. *)
Definition resized_buffers (img : image) (format : string)
    (sizes : list (Z * Z)) : list (list byte) :=
  map (fun size => save (image_resize img size) format 75) sizes.

(** The first buffer within budget, or else the last buffer. *)
Definition first_fit_or_last (budget : Q) (buffers : list (list byte))
  : list byte :=
  match find (fun buf => within_budget buf budget) buffers with
  | Some buf => buf
  | None => last buffers []
  end.

(** The resize loop as a scan of a list of scale factors. *)
Fixpoint scan_scales (img : image) (size : Z * Z) (budget : Q)
    (format : string) (scales : list float) (img_byte_arr : option (list byte))
  : result (list byte) :=
  match scales with
  | [] =>
      match img_byte_arr with
      | Some buf => inr buf
      | None => inl (OtherException "'NoneType' object has no attribute 'getvalue'")
      end
  | s :: rest =>
      match int_of_scaled (fst size) s with
      | inl e => inl e
      | inr new_width =>
          match int_of_scaled (snd size) s with
          | inl e => inl e
          | inr new_height =>
              let buf := save (image_resize img (new_width, new_height)) format 75 in
              if within_budget buf budget then inr buf
              else scan_scales img size budget format rest (Some buf)
          end
      end
  end.
End AdapterVocabulary.

Module StubPIL.

(** A frame is its size and its mode. *)
Record frame := {
  width : Z;
  height : Z;
  mode : string
}.

Definition zeros (n : Z) : list byte := repeat x00 (Z.to_nat n).

Definition resized (img : frame) (size : Z * Z) : frame :=
  {| width := fst size; height := snd size; mode := mode img |}.

Definition converted (img : frame) (m : string) : frame :=
  {| width := width img; height := height img; mode := m |}.

Definition opened (data : list byte) : result frame :=
  inr {| width := 4; height := 3; mode := "RGB" |}.

(** An encoder whose output grows with the area and the quality. *)
Definition pil_area : PIL frame :=
  {| image_open := opened;
     image_size := fun img => (width img, height img);
     image_mode := mode;
     image_convert := converted;
     image_resize := resized;
     save_jpeg := fun img q => zeros (width img * height img * q / 100);
     save_png := fun img => zeros (width img * height img) |}.


Definition square : frame := {| width := 100; height := 100; mode := "RGB" |}.



End StubPIL.

(* ===================================================================== *)
(** * The rest of the program: start-up, failures, test rigs *)
(* ===================================================================== *)

(** [camera = CanonCamera()] of [server.py]: no address, port 8080. *)
Definition server_camera (env_CANON_IP : option string) : CanonCamera :=
  CanonCamera_init None 8080 env_CANON_IP.

(** The call [init_live_view] makes. *)
Definition liveview_init (self : CanonCamera) (liveviewsize cameradisplay : string)
  : request :=
  {| req_method := POST;
     req_url := base_url self ++ "/ccapi/ver100/shooting/liveview/";
     req_json := Some (JObj [("liveviewsize", JStr liveviewsize);
                             ("cameradisplay", JStr cameradisplay)]);
     req_timeout := None; req_stream := false |}.

(** Which of the two log lines the probe of [main] ends with. *)
Inductive startup :=
| Connected
| NotConnected (e : exn).

Section Startup.
Context {D : Type} `{Camera D}.
Variable camera : CanonCamera.

(** The [try] block of [main]: a read of all settings, then the start of the
    live view with its default arguments. *)
Definition main_try : M D unit :=
  _ <- get_all_settings camera ;;
  _ <- init_live_view camera "small" "keep" ;;
  ret tt.

(** The connectivity probe of [main]: [except Exception] logs a warning and
    the server starts anyway.  Reading the environment before it and
    [mcp.run] after it are not part of the model. *)
Definition main_probe (w : world D) : startup * world D :=
  match main_try w with
  | (inr _, w') => (Connected, w')
  | (inl e, w') => (NotConnected e, w')
  end.

(** A request that fails with [e]: [requests] raises [e], or the response
    has a 4xx or 5xx status and [e] is the HTTP error. *)
Definition request_fails (r : request) (w : world D) (e : exn) (d' : D) : Prop :=
  handle r (dev w) = (inl e, d')
  \/ exists resp,
       handle r (dev w) = (inr resp, d')
       /\ is_error_status resp = true
       /\ e = RequestException (http_error_msg resp).

(** A read that fails with [e]: the request fails, or the body of the
    response is not JSON and [.json()] raises [e]. *)
Definition read_fails (r : request) (w : world D) (e : exn) (d' : D) : Prop :=
  request_fails r w e d'
  \/ exists resp,
       handle r (dev w) = (inr resp, d')
       /\ is_error_status resp = false
       /\ resp_json resp = inl e.
End Startup.

(** The request [get_camera_settings] makes for [setting]: the read of all
    settings for [all], the read of the setting otherwise. *)
Definition read_request (camera : CanonCamera) (setting : string) : request :=
  if String.eqb setting "all" then get_request camera settings_path
  else setting_read camera setting.

(** A read as the client sends them: a GET with no body and a timeout of ten
    seconds. *)
Definition is_plain_read (r : request) : Prop :=
  req_method r = GET /\ req_json r = None /\ req_timeout r = Some 10.

(** A JSON value that is not a string. *)
Definition not_a_string (j : json) : bool :=
  match j with
  | JStr _ => false
  | _ => true
  end.

(** A JSON value that is a dict. *)
Definition is_object (j : json) : bool :=
  match j with
  | JObj _ => true
  | _ => false
  end.

(** A JSON value that is no container: [null], a boolean, a number. *)
Definition is_scalar (j : json) : bool :=
  match j with
  | JNull | JBool _ | JNum _ => true
  | _ => false
  end.

(** A record on which the test of the value raises: it is no container, or
    its [ability] is none. *)
Definition unusable_record (current : json) : Prop :=
  is_scalar current = true
  \/ exists rec ability,
       current = JObj rec
       /\ dict_get "ability" rec = Some ability
       /\ is_scalar ability = true.

(** The error record of a text, if it is one: its kind and its message. *)
Definition error_of (t : text) : option (string * string) :=
  match t with
  | json_dumps (JObj [("success", JBool false); ("error", JStr kind);
                      ("message", JStr message)]) => Some (kind, message)
  | _ => None
  end.

(** A character outside the base64 alphabet ([=] is one). *)
Definition outside_alphabet (c : ascii) : bool :=
  match table_a2b_base64 c with
  | Some _ => false
  | None => true
  end.

Fixpoint all_chars (f : ascii -> bool) (s : string) : bool :=
  match s with
  | EmptyString => true
  | String c rest => f c && all_chars f rest
  end.

Section AdapterCandidates.
Context {image : Type} `{PIL image}.

End AdapterCandidates.

(** One megabyte, the budget of [get_liveview], in bytes. *)
Definition one_megabyte : Q := (1 * 1024 * 1024)%Q.

Module Rig.

(** A camera whose answers are set by hand: off line it refuses the
    connection; on line it answers every read with [reply] and [read_status],
    every write with [write_status], the start of the live view with
    [init_status], and keeps the bodies written to it. *)
Record device := {
  online : bool;
  reply : json;
  read_status : Z;
  write_status : Z;
  init_status : Z;
  frame : list byte;
  written : list json
}.

Definition respond (r : request) (status : Z) (body : json) (bytes : list byte)
  : response :=
  {| status_code := status;
     reason := if status <? 400 then "OK" else "Service Unavailable";
     resp_url := req_url r; content := bytes; resp_json := inr body |}.

Definition answer (r : request) (d : device) : result response * device :=
  if online d then
    match req_method r with
    | GET => (inr (respond r (read_status d) (reply d) (frame d)), d)
    | PUT =>
        (inr (respond r (write_status d) JNull []),
         {| online := online d; reply := reply d; read_status := read_status d;
            write_status := write_status d; init_status := init_status d;
            frame := frame d;
            written := match req_json r with
                       | Some body => body :: written d
                       | None => written d
                       end |})
    | POST => (inr (respond r (init_status d) JNull []), d)
    end
  else (inl (RequestException "Connection refused"), d).

Definition camera_rig : Camera device := {| handle := answer |}.

Definition cam : CanonCamera := CanonCamera_init (Some "10.0.0.7") 8080 None.

(** A camera on line that answers reads with [doc]. *)
Definition serving (doc : json) : world device :=
  {| dev := {| online := true; reply := doc; read_status := 200;
               write_status := 200; init_status := 200;
               frame := ["255"%byte; "216"%byte; "255"%byte; "217"%byte];
               written := [] |};
     trace := [] |}.

(** The same camera, refusing writes with 503. *)
Definition refusing_writes (doc : json) : world device :=
  {| dev := {| online := true; reply := doc; read_status := 200;
               write_status := 503; init_status := 200;
               frame := []; written := [] |};
     trace := [] |}.

(** A camera that answers everything with 503. *)
Definition busy : world device :=
  {| dev := {| online := true; reply := JNull; read_status := 503;
               write_status := 503; init_status := 503;
               frame := []; written := [] |};
     trace := [] |}.

(** A camera that reads well and answers the start of the live view with 503. *)
Definition no_liveview : world device :=
  {| dev := {| online := true; reply := JObj []; read_status := 200;
               write_status := 200; init_status := 503;
               frame := []; written := [] |};
     trace := [] |}.

(** A camera off line. *)
Definition down : world device :=
  {| dev := {| online := false; reply := JNull; read_status := 200;
               write_status := 200; init_status := 200;
               frame := []; written := [] |};
     trace := [] |}.

Definition av_record : list (string * json) :=
  [("value", JStr "5.6"); ("setting_name", JStr "aperture");
   ("ability", JArr [JStr "4.0"; JStr "5.6"; JStr "8.0"])].

Definition numeric_iso : list (string * json) :=
  [("value", JNum (PyInt 100));
   ("ability", JArr [JNum (PyInt 100); JNum (PyInt 200)])].

(** An imaging library that cannot read the frame. *)
Definition pil_unreadable : PIL StubPIL.frame :=
  {| image_open := fun _ => inl (OtherException "cannot identify image file");
     image_size := fun img => (StubPIL.width img, StubPIL.height img);
     image_mode := StubPIL.mode;
     image_convert := StubPIL.converted;
     image_resize := StubPIL.resized;
     save_jpeg := fun img q => StubPIL.zeros (StubPIL.width img * StubPIL.height img * q / 100);
     save_png := fun img => StubPIL.zeros (StubPIL.width img * StubPIL.height img) |}.

Definition tiny : StubPIL.frame :=
  {| StubPIL.width := 7; StubPIL.height := 120; StubPIL.mode := "RGB" |}.

Definition rgba : StubPIL.frame :=
  {| StubPIL.width := 100; StubPIL.height := 100; StubPIL.mode := "RGBA" |}.

End Rig.

(* ===================================================================== *)
(** * Properties of the camera client and of the settings tools *)
(* ===================================================================== *)

Arguments invalid_value_msg : simpl never.
Arguments invalid_setting_msg : simpl never.
Arguments http_error_msg : simpl never.
Arguments update_record : simpl never.
Arguments _get : simpl never.
Arguments _put : simpl never.
Arguments get_setting : simpl never.
Arguments get_all_settings : simpl never.
Arguments set_setting : simpl never.
Arguments settings_path : simpl never.

Lemma str_in_list_In (x : string) (l : list string) :
  str_in_list x l = true <-> In x l.
Proof.
  unfold str_in_list. rewrite existsb_exists. split.
  - intros [y [Hy Heq]]. apply String.eqb_eq in Heq. now subst.
  - intros Hin. exists x. split; [assumption | apply String.eqb_refl].
Qed.

Lemma str_in_list_not_In (x : string) (l : list string) :
  str_in_list x l = false <-> ~ In x l.
Proof.
  rewrite <- str_in_list_In. destruct (str_in_list x l); intuition congruence.
Qed.

Section ClientFacts.
Context {D : Type} `{Camera D} `{PyRepr}.
Variable self : CanonCamera.

Lemma http_run (r : request) (w : world D) :
  http r w = (fst (handle r (dev w)), after w (snd (handle r (dev w))) [r]).
Proof. unfold http, after. destruct (handle r (dev w)); reflexivity. Qed.

Lemma _get_run (path : string) (w : world D) :
  _get self path w =
  match handle (get_request self path) (dev w) with
  | (inl e, d') => (inl e, after w d' [get_request self path])
  | (inr resp, d') =>
      if is_error_status resp
      then (inl (RequestException (http_error_msg resp)),
            after w d' [get_request self path])
      else (inr resp, after w d' [get_request self path])
  end.
Proof.
  unfold _get, requests_get, bind. fold (get_request self path).
  rewrite http_run.
  destruct (handle (get_request self path) (dev w)) as [[e | resp] d']; cbn;
    [reflexivity |].
  unfold raise_for_status. destruct (is_error_status resp); reflexivity.
Qed.

Lemma _put_run (path : string) (data : json) (w : world D) :
  _put self path data w =
  match handle (put_request self path data) (dev w) with
  | (inl e, d') => (inl e, after w d' [put_request self path data])
  | (inr resp, d') =>
      if is_error_status resp
      then (inl (RequestException (http_error_msg resp)),
            after w d' [put_request self path data])
      else (inr resp, after w d' [put_request self path data])
  end.
Proof.
  unfold _put, requests_put, bind. fold (put_request self path data).
  rewrite http_run.
  destruct (handle (put_request self path data) (dev w))
    as [[e | resp] d']; cbn; [reflexivity |].
  unfold raise_for_status. destruct (is_error_status resp); reflexivity.
Qed.

Lemma get_setting_run (setting_name : string) (w : world D) doc d' :
  answers (setting_read self setting_name) w doc d' ->
  get_setting self setting_name w =
  (inr doc, after w d' [setting_read self setting_name]).
Proof.
  intros (resp & Hh & Hs & Hj).
  unfold get_setting, bind. rewrite _get_run.
  fold (setting_read self setting_name). rewrite Hh, Hs, Hj. reflexivity.
Qed.

Lemma get_all_settings_run (w : world D) doc d' :
  answers (get_request self settings_path) w doc d' ->
  get_all_settings self w =
  (inr doc, after w d' [get_request self settings_path]).
Proof.
  intros (resp & Hh & Hs & Hj).
  unfold get_all_settings, bind. rewrite _get_run, Hh, Hs, Hj. reflexivity.
Qed.

Lemma after_after (w : world D) d1 d2 s1 s2 :
  after (after w d1 s1) d2 s2 = after w d2 (s1 ++ s2).
Proof. unfold after; cbn. now rewrite app_assoc. Qed.

(** A value outside the list just read: the read is the only request, and
    the value is refused with the list in the message. *)
Lemma set_setting_refuses (setting_name value : string) (w : world D)
    current ability d' :
  answers (setting_read self setting_name) w (JObj current) d' ->
  dict_get "ability" current = Some (JArr ability) ->
  existsb (py_eq_str value) ability = false ->
  set_setting self setting_name value w =
  (inl (ValueError (invalid_value_msg value setting_name (JArr ability))),
   after w d' [setting_read self setting_name]).
Proof.
  intros Hans Hab Hnot.
  unfold set_setting, bind. rewrite (get_setting_run _ _ _ _ Hans).
  unfold value_rejected; cbn. rewrite Hab; cbn. rewrite Hnot. reflexivity.
Qed.
End ClientFacts.

Lemma str_append_assoc (a b c : string) : (a ++ b) ++ c = a ++ (b ++ c).
Proof. induction a as [| ch a IH]; cbn; congruence. Qed.

Lemma prefix_refl (x : string) : String.prefix x x = true.
Proof.
  induction x as [| c x IH]; cbn; [reflexivity |].
  destruct (ascii_dec c c) as [_ | Hne]; [exact IH | now elim Hne].
Qed.

Lemma str_contains_prefix (x hay : string) :
  String.prefix x hay = true -> str_contains x hay = true.
Proof. intros Hp. destruct hay; cbn [str_contains]; now rewrite Hp. Qed.

(** A string occurs in every string that ends with it. *)
Lemma str_contains_app (pre x : string) : str_contains x (pre ++ x) = true.
Proof.
  induction pre as [| c pre IH]; cbn [append].
  - apply str_contains_prefix, prefix_refl.
  - cbn [str_contains]. now destruct (String.prefix x (String c (pre ++ x))).
Qed.

Section WriteFacts.
Context {D : Type} `{Camera D} `{PyRepr}.
Variable camera : CanonCamera.

Lemma set_camera_setting_bad_name (setting value : string) (w : world D) :
  str_in_list setting valid_settings_write = false ->
  set_camera_setting camera setting value w =
  (json_dumps (error_record "invalid_parameter"
                 (invalid_setting_msg setting valid_settings_write)), w).
Proof.
  intros Hno. unfold set_camera_setting, set_camera_setting_try.
  rewrite Hno. reflexivity.
Qed.

Lemma set_camera_setting_no_value (setting : string) (w : world D) :
  str_in_list setting valid_settings_write = true ->
  set_camera_setting camera setting "" w =
  (json_dumps (error_record "invalid_parameter" "Value is required"), w).
Proof.
  intros Hin. unfold set_camera_setting, set_camera_setting_try.
  rewrite Hin. reflexivity.
Qed.

Lemma set_camera_setting_delegates (setting value : string) (w : world D) :
  str_in_list setting valid_settings_write = true ->
  value <> "" ->
  set_camera_setting camera setting value w =
  match set_setting camera setting value w with
  | (inr res, w') => (json_dumps res, w')
  | (inl e, w') => (settings_handlers e, w')
  end.
Proof.
  intros Hin Hne. unfold set_camera_setting, set_camera_setting_try.
  rewrite Hin. apply String.eqb_neq in Hne. rewrite Hne. cbn [negb].
  unfold bind, ret. destruct (set_setting camera setting value w) as [[e | r] w'];
    reflexivity.
Qed.

(** C1. When the record just read for a setting carries an [ability] list
    and the requested value is not in it, [set_camera_setting] answers
    [invalid_parameter], every request it sent is a read (no PUT), and the
    device has seen at most that read.  When the record was read at all
    (the name is writable and the value is not empty), the message is the one
    of [set_setting], which ends with the whole [ability] list, and the
    read is the only request. *)
Theorem set_camera_setting_value_outside_ability
    (setting value : string) (w : world D)
    (current : list (string * json)) (ability : list json) (d' : D) :
  answers (setting_read camera setting) w (JObj current) d' ->
  dict_get "ability" current = Some (JArr ability) ->
  existsb (py_eq_str value) ability = false ->
  (exists msg sent,
      fst (set_camera_setting camera setting value w)
      = json_dumps (error_record "invalid_parameter" msg)
      /\ trace (snd (set_camera_setting camera setting value w)) = (trace w ++ sent)%list
      /\ Forall (fun r => is_write r = false) sent
      /\ (dev (snd (set_camera_setting camera setting value w)) = dev w
          \/ dev (snd (set_camera_setting camera setting value w)) = d'))
  /\ (str_in_list setting valid_settings_write = true ->
      value <> "" ->
      set_camera_setting camera setting value w
      = (json_dumps (error_record "invalid_parameter"
                       (invalid_value_msg value setting (JArr ability))),
         after w d' [setting_read camera setting])
      /\ str_contains (py_repr (JArr ability))
           (invalid_value_msg value setting (JArr ability)) = true).
Proof.
  intros Hans Hab Hnot.
  assert (Hrun : str_in_list setting valid_settings_write = true ->
                 value <> "" ->
                 set_camera_setting camera setting value w
                 = (json_dumps (error_record "invalid_parameter"
                                  (invalid_value_msg value setting (JArr ability))),
                    after w d' [setting_read camera setting])).
  { intros Hin Hne. rewrite set_camera_setting_delegates by assumption.
    now rewrite (set_setting_refuses camera setting value w current ability d'). }
  split.
  - destruct (str_in_list setting valid_settings_write) eqn:Hin.
    + destruct (String.eqb_spec value "") as [-> | Hne].
      * rewrite set_camera_setting_no_value by assumption.
        exists "Value is required", []. cbn. rewrite app_nil_r. auto.
      * rewrite Hrun by auto.
        exists (invalid_value_msg value setting (JArr ability)),
               [setting_read camera setting].
        cbn. repeat split; auto.
    + rewrite set_camera_setting_bad_name by assumption.
      exists (invalid_setting_msg setting valid_settings_write), [].
      cbn. rewrite app_nil_r. auto.
  - intros Hin Hne. split; [now apply Hrun |].
    unfold invalid_value_msg.
    change (py_str (JArr ability)) with (py_repr (JArr ability)).
    generalize (py_repr (JArr ability)) as shown. intros shown.
    repeat rewrite <- str_append_assoc. apply str_contains_app.
Qed.

(** C2. When the record just read carries an [ability] list that holds the
    requested value, and the camera accepts the write, [set_setting] sends
    the read and then one write, and returns the record with the value
    reported by the read as [previous_value]. *)
Theorem set_setting_value_in_ability
    (setting value : string) (w : world D)
    (current : list (string * json)) (ability : list json) (d1 d2 : D)
    (resp2 : response) :
  answers (setting_read camera setting) w (JObj current) d1 ->
  dict_get "ability" current = Some (JArr ability) ->
  existsb (py_eq_str value) ability = true ->
  handle (setting_write camera setting value) d1 = (inr resp2, d2) ->
  is_error_status resp2 = false ->
  set_setting camera setting value w
  = (inr (update_record setting (reported_value current) value),
     after w d2 [setting_read camera setting;
                 setting_write camera setting value])
  /\ filter is_write [setting_read camera setting;
                      setting_write camera setting value]
     = [setting_write camera setting value].
Proof.
  intros Hans Hab Hin Hput Hok. split; [| reflexivity].
  unfold set_setting, bind. rewrite (get_setting_run _ _ _ _ _ Hans).
  unfold value_rejected; cbn. rewrite Hab; cbn. rewrite Hin; cbn.
  rewrite _put_run. cbn [after dev].
  change (put_request camera _ _) with (setting_write camera setting value).
  rewrite Hput, Hok.
  unfold raise_for_status. rewrite Hok. cbn. rewrite after_after. reflexivity.
Qed.

(** C3. When the record just read has no [ability] field, [set_setting]
    goes to the write whatever the value is, and its outcome is the one of
    the write: the exception of the request, the HTTP error of the
    response, or the update record. *)
Theorem set_setting_without_ability
    (setting value : string) (w : world D)
    (current : list (string * json)) (d1 : D) :
  answers (setting_read camera setting) w (JObj current) d1 ->
  dict_get "ability" current = None ->
  set_setting camera setting value w
  = match handle (setting_write camera setting value) d1 with
    | (inl e, d2) =>
        (inl e, after w d2 [setting_read camera setting;
                            setting_write camera setting value])
    | (inr resp2, d2) =>
        (if is_error_status resp2
         then inl (RequestException (http_error_msg resp2))
         else inr (update_record setting (reported_value current) value),
         after w d2 [setting_read camera setting;
                     setting_write camera setting value])
    end.
Proof.
  intros Hans Hab.
  unfold set_setting, bind. rewrite (get_setting_run _ _ _ _ _ Hans).
  unfold value_rejected; cbn. rewrite Hab; cbn.
  rewrite _put_run. cbn [after dev].
  change (put_request camera _ _) with (setting_write camera setting value).
  destruct (handle (setting_write camera setting value) d1) as [[e | resp2] d2].
  - rewrite after_after. reflexivity.
  - unfold raise_for_status.
    destruct (is_error_status resp2) eqn:Hs; cbn; rewrite ?Hs; cbn;
      rewrite after_after; reflexivity.
Qed.
End WriteFacts.

(** ** The projection of [get_camera_settings("all")] *)

Lemma dict_set_fresh (key : string) (v : json) (d : list (string * json)) :
  dict_get key d = None -> dict_set key v d = (d ++ [(key, v)])%list.
Proof.
  induction d as [| [k v0] d IH]; cbn; [reflexivity |].
  destruct (String.eqb k key); [discriminate |].
  intros Hnone. now rewrite IH.
Qed.

Lemma dict_get_app_fresh (key k : string) (v : json) (d : list (string * json)) :
  k <> key -> dict_get key d = None -> dict_get key (d ++ [(k, v)]) = None.
Proof.
  intros Hne. induction d as [| [k0 v0] d IH]; cbn.
  - apply String.eqb_neq in Hne. now rewrite Hne.
  - destruct (String.eqb k0 key); [discriminate | exact IH].
Qed.

Lemma dict_comprehension_project (keys : list string) (doc acc : list (string * json)) :
  NoDup keys ->
  (forall k, In k keys -> dict_get k acc = None) ->
  dict_comprehension keys (JObj doc) acc = inr (acc ++ project keys doc)%list.
Proof.
  intros Hnd. revert acc.
  induction Hnd as [| key rest Hnotin Hnd IH]; intros acc Hfresh; cbn.
  - now rewrite app_nil_r.
  - destruct (dict_get key doc) as [v |] eqn:Hget.
    + rewrite dict_set_fresh by (apply Hfresh; now left).
      rewrite IH.
      * now rewrite <- app_assoc.
      * intros k Hk. apply dict_get_app_fresh.
        -- intros ->. contradiction.
        -- apply Hfresh. now right.
    + apply IH. intros k Hk. apply Hfresh. now right.
Qed.

Lemma project_In (keys : list string) (doc : list (string * json)) (k : string)
    (v : json) :
  In (k, v) (project keys doc) <-> In k keys /\ dict_get k doc = Some v.
Proof.
  induction keys as [| key rest IH]; cbn; [tauto |].
  destruct (dict_get key doc) as [v0 |] eqn:Hget; cbn; rewrite IH.
  - split.
    + intros [Heq | [Hin Hk]]; [inversion Heq; subst; auto | auto].
    + intros [[-> | Hin] Hk]; [left; congruence | auto].
  - split.
    + intros [Hin Hk]; auto.
    + intros [[-> | Hin] Hk]; [congruence | auto].
Qed.

Lemma keys_to_keep_NoDup : NoDup keys_to_keep.
Proof.
  unfold keys_to_keep.
  repeat (constructor; [cbn; intuition discriminate |]). constructor.
Qed.

Section ReadFacts.
Context {D : Type} `{Camera D} `{PyRepr}.
Variable camera : CanonCamera.

Lemma _get_trace (path : string) (w : world D) :
  trace (snd (_get camera path w)) = (trace w ++ [get_request camera path])%list.
Proof.
  rewrite _get_run.
  destruct (handle (get_request camera path) (dev w)) as [[e | resp] d'];
    [reflexivity |].
  destruct (is_error_status resp); reflexivity.
Qed.

Lemma get_camera_settings_bad_name (setting : string) (w : world D) :
  setting <> "all" ->
  str_in_list setting valid_settings_read = false ->
  get_camera_settings camera setting w =
  (json_dumps (error_record "invalid_parameter"
                 (invalid_setting_msg setting valid_settings_read)), w).
Proof.
  intros Hall Hno. unfold get_camera_settings, get_camera_settings_try.
  apply String.eqb_neq in Hall. rewrite Hall, Hno. reflexivity.
Qed.

(** What the read path does for a name of its list: the outcome is the one
    of the camera read. *)
Lemma get_camera_settings_named (setting : string) (w : world D) :
  setting <> "all" ->
  str_in_list setting valid_settings_read = true ->
  get_camera_settings camera setting w =
  match get_setting camera setting w with
  | (inr result, w') =>
      (match py_setitem result "setting_name" (JStr setting) with
       | inr r => json_dumps r
       | inl e => settings_handlers e
       end, w')
  | (inl e, w') => (settings_handlers e, w')
  end.
Proof.
  intros Hall Hin. unfold get_camera_settings, get_camera_settings_try.
  apply String.eqb_neq in Hall. rewrite Hall, Hin. cbn [negb].
  unfold bind. destruct (get_setting camera setting w) as [[e | result] w'];
    [reflexivity |].
  destruct (py_setitem result "setting_name" (JStr setting)); reflexivity.
Qed.

(** C7. A setting name outside the list of the read path (and other than
    the selector [all]) gives [invalid_parameter] on the read path, a name
    outside the list of the write path gives [invalid_parameter] on the
    write path, and an empty value gives [invalid_parameter] on the write
    path for every name; in all three the world is returned as it was: no
    request is sent. *)
Theorem unrecognized_name_or_empty_value_invalid_parameter
    (setting value : string) (w : world D) :
  (setting <> "all" -> ~ In setting valid_settings_read ->
   get_camera_settings camera setting w
   = (json_dumps (error_record "invalid_parameter"
                    (invalid_setting_msg setting valid_settings_read)), w))
  /\ (~ In setting valid_settings_write ->
      set_camera_setting camera setting value w
      = (json_dumps (error_record "invalid_parameter"
                       (invalid_setting_msg setting valid_settings_write)), w))
  /\ (exists msg,
         set_camera_setting camera setting "" w
         = (json_dumps (error_record "invalid_parameter" msg), w)).
Proof.
  split; [| split].
  - intros Hall Hno. apply get_camera_settings_bad_name; [assumption |].
    now apply str_in_list_not_In.
  - intros Hno. apply set_camera_setting_bad_name. now apply str_in_list_not_In.
  - destruct (str_in_list setting valid_settings_write) eqn:Hin.
    + exists "Value is required". now apply set_camera_setting_no_value.
    + eexists. now apply set_camera_setting_bad_name.
Qed.

(** C8. When the camera answers the read of all settings with a document,
    [get_camera_settings("all")] returns the entries of the document under
    the keys of [keys_to_keep], in that order: an entry is returned exactly
    when its key is in [keys_to_keep] and the document has it. *)
Theorem get_camera_settings_all_projection
    (w : world D) (doc : list (string * json)) (d' : D) :
  answers (get_request camera settings_path) w (JObj doc) d' ->
  get_camera_settings camera "all" w
  = (json_dumps (JObj (project keys_to_keep doc)),
     after w d' [get_request camera settings_path])
  /\ (forall k v, In (k, v) (project keys_to_keep doc)
                  <-> In k keys_to_keep /\ dict_get k doc = Some v).
Proof.
  intros Hans. split; [| intros k v; apply project_In].
  unfold get_camera_settings, get_camera_settings_try. cbn [String.eqb Ascii.eqb Bool.eqb].
  unfold bind. rewrite (get_all_settings_run _ _ _ _ Hans).
  rewrite (dict_comprehension_project keys_to_keep doc [] keys_to_keep_NoDup)
    by reflexivity.
  reflexivity.
Qed.

(** C9. The read path takes [shootingmodedial]: it sends the read of that
    setting and its outcome is the one of the read.  The write path, whose
    list is [av], [tv], [iso], answers [invalid_parameter] for it whatever
    the value, and sends nothing. *)
Theorem shootingmodedial_read_but_not_written (value : string) (w : world D) :
  get_camera_settings camera "shootingmodedial" w
  = match get_setting camera "shootingmodedial" w with
    | (inr result, w') =>
        (match py_setitem result "setting_name" (JStr "shootingmodedial") with
         | inr r => json_dumps r
         | inl e => settings_handlers e
         end, w')
    | (inl e, w') => (settings_handlers e, w')
    end
  /\ trace (snd (get_camera_settings camera "shootingmodedial" w))
     = (trace w ++ [setting_read camera "shootingmodedial"])%list
  /\ set_camera_setting camera "shootingmodedial" value w
     = (json_dumps (error_record "invalid_parameter"
                      (invalid_setting_msg "shootingmodedial" valid_settings_write)),
        w)
  /\ valid_settings_write = ["av"; "tv"; "iso"].
Proof.
  assert (Hnamed := get_camera_settings_named "shootingmodedial" w
                      ltac:(discriminate) eq_refl).
  split; [exact Hnamed |]. split; [| split; [| reflexivity]].
  - rewrite Hnamed. unfold get_setting, bind.
    pose proof (_get_trace (settings_path ++ "/" ++ "shootingmodedial") w) as Ht.
    fold (setting_read camera "shootingmodedial") in Ht.
    destruct (_get camera (settings_path ++ "/" ++ "shootingmodedial") w)
      as [[e | resp] w1]; cbn in Ht |- *; [exact Ht |].
    unfold lift. destruct (resp_json resp) as [e | doc]; cbn; exact Ht.
  - now apply set_camera_setting_bad_name.
Qed.

(** C6, at the call that breaks it: [init_live_view] sends one POST, and
    sends it without a timeout. *)
Theorem init_live_view_sends_post_without_timeout
    (liveviewsize cameradisplay : string) (w : world D) :
  exists r,
    trace (snd (init_live_view camera liveviewsize cameradisplay w))
    = (trace w ++ [r])%list
    /\ req_method r = POST
    /\ req_timeout r = None.
Proof.
  unfold init_live_view, requests_post, bind. rewrite http_run.
  eexists. split; [| split].
  - destruct (fst (handle _ (dev w))); reflexivity.
  - reflexivity.
  - reflexivity.
Qed.

(** The other three calls carry their timeout: 10 seconds for the reads
    and writes of settings, 15 seconds for the live-view fetch. *)
Lemma settings_calls_timeout (path : string) (data : json) :
  req_timeout (get_request camera path) = Some 10
  /\ req_timeout (put_request camera path data) = Some 10
  /\ req_timeout (liveview_fetch camera) = Some 15.
Proof. repeat split. Qed.
End ReadFacts.

(* ===================================================================== *)
(** * Base64: decoding after encoding *)
(* ===================================================================== *)

(** ** Checking a property on every byte *)

Lemma all_bytes_In (b : byte) : In b all_bytes.
Proof.
  unfold all_bytes. apply in_map_iff. exists (Byte.to_nat b). split.
  - destruct b; reflexivity.
  - apply in_seq. pose proof (Byte.to_nat_bounded b). lia.
Qed.

Lemma forall_byte (P : byte -> bool) :
  forallb P all_bytes = true -> forall b, P b = true.
Proof.
  intros Hall b. rewrite forallb_forall in Hall. apply Hall, all_bytes_In.
Qed.

Lemma forall_byte2 (P : byte -> byte -> bool) :
  forallb (fun a => forallb (P a) all_bytes) all_bytes = true ->
  forall a b, P a b = true.
Proof.
  intros Hall a b. apply forall_byte. revert a. now apply forall_byte.
Qed.

Lemma forall_sextet (P : Z -> bool) :
  forallb P sextets = true -> forall n, 0 <= n < 64 -> P n = true.
Proof.
  intros Hall n Hn. rewrite forallb_forall in Hall. apply Hall.
  unfold sextets. apply in_map_iff. exists (Z.to_nat n). split; [lia |].
  apply in_seq. lia.
Qed.

(** ** The four characters of a group *)

Lemma is_sextet_range (n : Z) : is_sextet n = true -> 0 <= n < 64.
Proof. unfold is_sextet. lia. Qed.

Lemma sextet1_range a : 0 <= sextet1 a < 64.
Proof. apply is_sextet_range. revert a. apply forall_byte. vm_compute. reflexivity. Qed.

Lemma sextet2_range a b : 0 <= sextet2 a b < 64.
Proof.
  apply is_sextet_range. revert a b.
  apply (forall_byte2 (fun a b => is_sextet (sextet2 a b))). vm_compute. reflexivity.
Qed.

Lemma sextet3_range b c : 0 <= sextet3 b c < 64.
Proof.
  apply is_sextet_range. revert b c.
  apply (forall_byte2 (fun b c => is_sextet (sextet3 b c))). vm_compute. reflexivity.
Qed.

Lemma sextet4_range c : 0 <= sextet4 c < 64.
Proof. apply is_sextet_range. revert c. apply forall_byte. vm_compute. reflexivity. Qed.

Lemma sextet2_last_range a : 0 <= sextet2_last a < 64.
Proof. apply is_sextet_range. revert a. apply forall_byte. vm_compute. reflexivity. Qed.

Lemma sextet3_last_range b : 0 <= sextet3_last b < 64.
Proof. apply is_sextet_range. revert b. apply forall_byte. vm_compute. reflexivity. Qed.

(** ** The bytes the decoder rebuilds *)

Lemma first_byte a b :
  byte_of_Z (Z.lor (Z.shiftl (sextet1 a) 2) (Z.shiftr (sextet2 a b) 4)) = a.
Proof.
  apply byte_dec_bl. revert a b.
  apply (forall_byte2 (fun a b =>
    Byte.eqb (byte_of_Z (Z.lor (Z.shiftl (sextet1 a) 2) (Z.shiftr (sextet2 a b) 4))) a)).
  vm_compute. reflexivity.
Qed.

Lemma first_byte_last a :
  byte_of_Z (Z.lor (Z.shiftl (sextet1 a) 2) (Z.shiftr (sextet2_last a) 4)) = a.
Proof.
  apply byte_dec_bl. revert a. apply forall_byte. vm_compute. reflexivity.
Qed.

Lemma second_left a b : Z.land (sextet2 a b) 15 = Z.shiftr (Z_of_byte b) 4.
Proof.
  apply Z.eqb_eq. revert a b.
  apply (forall_byte2 (fun a b =>
    Z.land (sextet2 a b) 15 =? Z.shiftr (Z_of_byte b) 4)).
  vm_compute. reflexivity.
Qed.

Lemma second_byte b c :
  byte_of_Z (Z.lor (Z.shiftl (Z.shiftr (Z_of_byte b) 4) 4) (Z.shiftr (sextet3 b c) 2)) = b.
Proof.
  apply byte_dec_bl. revert b c.
  apply (forall_byte2 (fun b c =>
    Byte.eqb (byte_of_Z (Z.lor (Z.shiftl (Z.shiftr (Z_of_byte b) 4) 4)
                               (Z.shiftr (sextet3 b c) 2))) b)).
  vm_compute. reflexivity.
Qed.

Lemma second_byte_last b :
  byte_of_Z (Z.lor (Z.shiftl (Z.shiftr (Z_of_byte b) 4) 4) (Z.shiftr (sextet3_last b) 2)) = b.
Proof.
  apply byte_dec_bl. revert b. apply forall_byte. vm_compute. reflexivity.
Qed.

Lemma third_left b c : Z.land (sextet3 b c) 3 = Z.shiftr (Z_of_byte c) 6.
Proof.
  apply Z.eqb_eq. revert b c.
  apply (forall_byte2 (fun b c =>
    Z.land (sextet3 b c) 3 =? Z.shiftr (Z_of_byte c) 6)).
  vm_compute. reflexivity.
Qed.

Lemma third_byte c :
  byte_of_Z (Z.lor (Z.shiftl (Z.shiftr (Z_of_byte c) 6) 6) (sextet4 c)) = c.
Proof.
  apply byte_dec_bl. revert c. apply forall_byte. vm_compute. reflexivity.
Qed.

(** ** The tables *)

Lemma table_round_trip (n : Z) :
  0 <= n < 64 ->
  table_a2b_base64 (table_b2a_base64 n) = Some n
  /\ Ascii.eqb (table_b2a_base64 n) BASE64_PAD = false
  /\ (N_of_ascii (table_b2a_base64 n) <? 128)%N = true.
Proof.
  intros Hn.
  assert (Hall : (match table_a2b_base64 (table_b2a_base64 n) with
                  | Some m => m =? n
                  | None => false
                  end
                  && negb (Ascii.eqb (table_b2a_base64 n) BASE64_PAD)
                  && (N_of_ascii (table_b2a_base64 n) <? 128)%N) = true).
  { revert n Hn. apply forall_sextet. vm_compute. reflexivity. }
  apply andb_prop in Hall as [Hall Hascii]. apply andb_prop in Hall as [Htab Hpad].
  destruct (table_a2b_base64 (table_b2a_base64 n)) as [m |]; [| discriminate].
  apply Z.eqb_eq in Htab. subst m.
  apply negb_true_iff in Hpad. auto.
Qed.

(** ** The decoder on the text of the encoder *)

Lemma a2b_step (n : Z) (rest : string) (quad_pos leftchar pads : Z)
    (bin_data : list byte) :
  0 <= n < 64 ->
  a2b_base64_loop (String (table_b2a_base64 n) rest) quad_pos leftchar pads bin_data
  = if quad_pos =? 0 then a2b_base64_loop rest 1 n 0 bin_data
    else if quad_pos =? 1 then
      a2b_base64_loop rest 2 (Z.land n 15) 0
        (bin_data ++ [byte_of_Z (Z.lor (Z.shiftl leftchar 2) (Z.shiftr n 4))])
    else if quad_pos =? 2 then
      a2b_base64_loop rest 3 (Z.land n 3) 0
        (bin_data ++ [byte_of_Z (Z.lor (Z.shiftl leftchar 4) (Z.shiftr n 2))])
    else
      a2b_base64_loop rest 0 0 0
        (bin_data ++ [byte_of_Z (Z.lor (Z.shiftl leftchar 6) n)]).
Proof.
  intros Hn. destruct (table_round_trip n Hn) as (Htab & Hpad & _).
  cbn [a2b_base64_loop]. rewrite Hpad, Htab. reflexivity.
Qed.

Lemma b2a_group (a b c : byte) (rest : list byte) :
  b2a_base64 (a :: b :: c :: rest)
  = b64char (sextet1 a) (b64char (sextet2 a b) (b64char (sextet3 b c)
      (b64char (sextet4 c) (b2a_base64 rest)))).
Proof. reflexivity. Qed.

Lemma b2a_one (a : byte) :
  b2a_base64 [a]
  = b64char (sextet1 a) (b64char (sextet2_last a)
      (String BASE64_PAD (String BASE64_PAD EmptyString))).
Proof. reflexivity. Qed.

Lemma b2a_two (a b : byte) :
  b2a_base64 [a; b]
  = b64char (sextet1 a) (b64char (sextet2 a b) (b64char (sextet3_last b)
      (String BASE64_PAD EmptyString))).
Proof. reflexivity. Qed.

Lemma sextet2_last_left a : Z.land (sextet2_last a) 15 = 0.
Proof.
  apply Z.eqb_eq. revert a. apply forall_byte. vm_compute. reflexivity.
Qed.

(** A full group gives back its three bytes and leaves the decoder at the
    start of a group. *)
Lemma a2b_group (a b c : byte) (rest : string) (bin_data : list byte) :
  a2b_base64_loop
    (b64char (sextet1 a) (b64char (sextet2 a b) (b64char (sextet3 b c)
       (b64char (sextet4 c) rest)))) 0 0 0 bin_data
  = a2b_base64_loop rest 0 0 0 (bin_data ++ [a; b; c]).
Proof.
  unfold b64char.
  rewrite (a2b_step _ _ _ _ _ _ (sextet1_range a)).
  change (0 =? 0) with true. cbv iota.
  rewrite (a2b_step _ _ _ _ _ _ (sextet2_range a b)).
  change (1 =? 0) with false. change (1 =? 1) with true. cbv iota.
  rewrite (a2b_step _ _ _ _ _ _ (sextet3_range b c)).
  change (2 =? 0) with false. change (2 =? 1) with false.
  change (2 =? 2) with true. cbv iota.
  rewrite (a2b_step _ _ _ _ _ _ (sextet4_range c)).
  change (3 =? 0) with false. change (3 =? 1) with false.
  change (3 =? 2) with false. cbv iota.
  rewrite first_byte, second_left, second_byte, third_left, third_byte.
  now rewrite <- !app_assoc.
Qed.

Lemma a2b_one (a : byte) (bin_data : list byte) :
  a2b_base64_loop (b2a_base64 [a] ++ newline) 0 0 0 bin_data = inr (bin_data ++ [a])%list.
Proof.
  rewrite b2a_one. unfold b64char. cbn [append].
  rewrite (a2b_step _ _ _ _ _ _ (sextet1_range a)).
  change (0 =? 0) with true. cbv iota.
  rewrite (a2b_step _ _ _ _ _ _ (sextet2_last_range a)).
  change (1 =? 0) with false. change (1 =? 1) with true. cbv iota.
  rewrite first_byte_last. reflexivity.
Qed.

Lemma a2b_two (a b : byte) (bin_data : list byte) :
  a2b_base64_loop (b2a_base64 [a; b] ++ newline) 0 0 0 bin_data
  = inr (bin_data ++ [a; b])%list.
Proof.
  rewrite b2a_two. unfold b64char. cbn [append].
  rewrite (a2b_step _ _ _ _ _ _ (sextet1_range a)).
  change (0 =? 0) with true. cbv iota.
  rewrite (a2b_step _ _ _ _ _ _ (sextet2_range a b)).
  change (1 =? 0) with false. change (1 =? 1) with true. cbv iota.
  rewrite (a2b_step _ _ _ _ _ _ (sextet3_last_range b)).
  change (2 =? 0) with false. change (2 =? 1) with false.
  change (2 =? 2) with true. cbv iota.
  rewrite first_byte, second_left, second_byte_last.
  cbn [a2b_base64_loop]. change (Ascii.eqb BASE64_PAD BASE64_PAD) with true.
  cbv iota. change (2 <=? 3) with true. change (4 <=? 3 + (0 + 1)) with true.
  cbv iota. now rewrite <- app_assoc.
Qed.

(** Induction on a list, three elements at a time. *)
Lemma list_ind3 {A : Type} (P : list A -> Prop) :
  P [] ->
  (forall a, P [a]) ->
  (forall a b, P [a; b]) ->
  (forall a b c l, P l -> P (a :: b :: c :: l)) ->
  forall l, P l.
Proof.
  intros Hnil Hone Htwo Hstep l.
  enough (Hall : P l /\ (forall a, P (a :: l)) /\ (forall a b, P (a :: b :: l)))
    by apply Hall.
  induction l as [| c l (IH0 & IH1 & IH2)]; auto.
Qed.

Lemma a2b_b2a (data : list byte) :
  forall bin_data,
    a2b_base64_loop (b2a_base64 data ++ newline) 0 0 0 bin_data
    = inr (bin_data ++ data)%list.
Proof.
  induction data as [| a | a b | a b c rest IH] using list_ind3; intros bin_data.
  - cbn. now rewrite app_nil_r.
  - apply a2b_one.
  - apply a2b_two.
  - rewrite b2a_group. unfold b64char at 1 2 3 4. cbn [append].
    fold (b64char (sextet4 c) (b2a_base64 rest ++ newline)).
    fold (b64char (sextet3 b c) (b64char (sextet4 c) (b2a_base64 rest ++ newline))).
    fold (b64char (sextet2 a b)
            (b64char (sextet3 b c) (b64char (sextet4 c) (b2a_base64 rest ++ newline)))).
    fold (b64char (sextet1 a) (b64char (sextet2 a b)
            (b64char (sextet3 b c) (b64char (sextet4 c) (b2a_base64 rest ++ newline))))).
    rewrite a2b_group, IH. now rewrite <- app_assoc.
Qed.

Lemma b2a_is_ascii (data : list byte) :
  is_ascii_text (b2a_base64 data ++ newline) = true.
Proof.
  induction data as [| a | a b | a b c rest IH] using list_ind3.
  - reflexivity.
  - rewrite b2a_one. unfold b64char. cbn [append is_ascii_text].
    destruct (table_round_trip _ (sextet1_range a)) as (_ & _ & ->).
    destruct (table_round_trip _ (sextet2_last_range a)) as (_ & _ & ->).
    reflexivity.
  - rewrite b2a_two. unfold b64char. cbn [append is_ascii_text].
    destruct (table_round_trip _ (sextet1_range a)) as (_ & _ & ->).
    destruct (table_round_trip _ (sextet2_range a b)) as (_ & _ & ->).
    destruct (table_round_trip _ (sextet3_last_range b)) as (_ & _ & ->).
    reflexivity.
  - rewrite b2a_group. unfold b64char. cbn [append is_ascii_text].
    destruct (table_round_trip _ (sextet1_range a)) as (_ & _ & ->).
    destruct (table_round_trip _ (sextet2_range a b)) as (_ & _ & ->).
    destruct (table_round_trip _ (sextet3_range b c)) as (_ & _ & ->).
    destruct (table_round_trip _ (sextet4_range c)) as (_ & _ & ->).
    exact IH.
Qed.

(** Decoding the text of [get_liveview_image] gives the bytes back. *)
Lemma b64decode_b64encode_newline (data : list byte) :
  b64decode (b64encode_text data ++ newline) = inr data.
Proof.
  unfold b64decode, b64encode_text, a2b_base64.
  rewrite b2a_is_ascii. apply (a2b_b2a data []).
Qed.

Arguments b64decode : simpl never.
Arguments b64encode_text : simpl never.
Arguments compress_image_to_target_size : simpl never.

Section LiveViewFacts.
Context {D : Type} `{Camera D} {image : Type} `{PIL image}.
Variable camera : CanonCamera.

Lemma get_liveview_image_run (w : world D) (resp : response) (d' : D) :
  handle (liveview_fetch camera) (dev w) = (inr resp, d') ->
  is_error_status resp = false ->
  get_liveview_image camera w
  = (inr (b64encode_text (content resp) ++ newline),
     after w d' [liveview_fetch camera]).
Proof.
  intros Hh Hs. unfold get_liveview_image, requests_get, bind.
  fold (liveview_fetch camera). rewrite http_run, Hh. cbn [fst snd].
  unfold raise_for_status. rewrite Hs. reflexivity.
Qed.

(** C10. For the bytes of a frame the camera returns, [get_liveview_image]
    gives their base64 text followed by a newline, [base64.b64decode] on
    that text gives the bytes back, and they are the bytes [get_liveview]
    hands to the image decoder. *)
Theorem liveview_base64_round_trip (w : world D) (resp : response) (d' : D) :
  handle (liveview_fetch camera) (dev w) = (inr resp, d') ->
  is_error_status resp = false ->
  get_liveview_image camera w
  = (inr (b64encode_text (content resp) ++ newline),
     after w d' [liveview_fetch camera])
  /\ b64decode (b64encode_text (content resp) ++ newline) = inr (content resp)
  /\ get_liveview_try camera w
     = match image_open (content resp) with
       | inl e => (inl e, after w d' [liveview_fetch camera])
       | inr pil_img =>
           (match compress_image_to_target_size pil_img 1 "JPEG" with
            | None => inr None
            | Some (inl e) => inl e
            | Some (inr data) => inr (Some data)
            end, after w d' [liveview_fetch camera])
       end.
Proof.
  intros Hh Hs.
  pose proof (get_liveview_image_run w resp d' Hh Hs) as Hrun.
  split; [exact Hrun |]. split; [apply b64decode_b64encode_newline |].
  unfold get_liveview_try, bind. rewrite Hrun.
  rewrite b64decode_b64encode_newline. cbn [lift ret].
  destruct (image_open (content resp)) as [e | pil_img]; [reflexivity |].
  cbn [lift ret].
  destruct (compress_image_to_target_size pil_img 1 "JPEG") as [[e | data] |];
    reflexivity.
Qed.
End LiveViewFacts.

(* ===================================================================== *)
(** * The image size adapter *)
(* ===================================================================== *)

(** ** Searching a decreasing list *)



Lemma find_none_all {A : Type} (f : A -> bool) (l : list A) :
  (forall x, In x l -> f x = false) -> find f l = None.
Proof.
  induction l as [| a l IH]; intros Hall; cbn; [reflexivity |].
  rewrite (Hall a) by now left. apply IH. intros x Hx. apply Hall. now right.
Qed.


Lemma last_cons_default {A : Type} (l : list A) :
  forall a d, last (a :: l) d = last l a.
Proof.
  induction l as [| b l IH]; intros a d; [reflexivity |].
  change (last (a :: b :: l) d) with (last (b :: l) d).
  now rewrite (IH b d), (IH b a).
Qed.

Section AdapterFacts.
Context {image : Type} `{PIL image}.

(** ** The first phase *)

Lemma quality_loop_step (img : image) (budget : Q) (format : string) (q : Z) :
  min_quality <= q ->
  quality_loop img budget format q
  = if within_budget (save img format q) budget then Some (save img format q)
    else quality_loop img budget format (q - 5).
Proof.
  intros Hq. rewrite quality_loop_equation_1.
  destruct (Z_le_gt_dec min_quality q) as [Hle | Hgt]; [| lia].
  cbn. destruct (within_budget (save img format q) budget); reflexivity.
Qed.

Lemma quality_loop_end (img : image) (budget : Q) (format : string) (q : Z) :
  q < min_quality -> quality_loop img budget format q = None.
Proof.
  intros Hq. rewrite quality_loop_equation_1.
  destruct (Z_le_gt_dec min_quality q) as [Hle | Hgt]; [lia | reflexivity].
Qed.

(** The loop started at [q] tries [q], [q - 5], ... while they are at least
    [min_quality], and returns at the first one that fits. *)
Lemma quality_loop_grid (img : image) (budget : Q) (format : string) (n : nat) :
  forall q,
    q - 5 * Z.of_nat n < min_quality ->
    ((0 < n)%nat -> min_quality <= q - 5 * (Z.of_nat n - 1)) ->
    quality_loop img budget format q = first_fit img budget format (grid_down n q).
Proof.
  induction n as [| n IH]; intros q Hend Hlast.
  - apply quality_loop_end. lia.
  - rewrite quality_loop_step by (specialize (Hlast ltac:(lia)); lia).
    unfold first_fit. cbn [grid_down find].
    destruct (within_budget (save img format q) budget); [reflexivity |].
    apply IH; [lia |]. intros Hn. specialize (Hlast ltac:(lia)). lia.
Qed.

Lemma quality_loop_first_fit (img : image) (budget : Q) (format : string) :
  quality_loop img budget format 95 = first_fit img budget format quality_grid.
Proof.
  change quality_grid with (grid_down 18 95).
  apply quality_loop_grid; unfold min_quality; cbn; lia.
Qed.


(** ** The second phase *)

Lemma resize_loop_scan (img : image) (w h : Z) (budget : Q) (format : string)
    (n : nat) :
  forall fuel s img_byte_arr,
    (n < fuel)%nat ->
    forallb (PrimFloat.ltb 0.1) (scales_from n s) = true ->
    PrimFloat.ltb 0.1 (scale_after n s) = false ->
    resize_loop fuel img w h budget format s img_byte_arr
    = Some (scan_scales img (w, h) budget format (scales_from n s) img_byte_arr).
Proof.
  induction n as [| n IH]; intros fuel s acc Hfuel Hin Hout;
    (destruct fuel as [| fuel]; [lia |]).
  - cbn [scale_after] in Hout. cbn [resize_loop scales_from scan_scales].
    rewrite Hout. now destruct acc.
  - cbn [scales_from forallb] in Hin. apply andb_prop in Hin as [Hs Hin].
    cbn [scale_after] in Hout.
    cbn [resize_loop scales_from scan_scales fst snd]. rewrite Hs.
    destruct (int_of_scaled w s) as [e | new_width]; [reflexivity |].
    destruct (int_of_scaled h s) as [e | new_height]; [reflexivity |].
    cbv zeta.
    destruct (within_budget
                (save (image_resize img (new_width, new_height)) format 75) budget);
      [reflexivity |].
    apply IH; [lia | assumption | assumption].
Qed.

(** The resize loop ends within its fuel: it is the scan of the nine scale
    factors. *)
Lemma resize_and_compress_image_scan (img : image) (budget : Q) (format : string) :
  resize_and_compress_image img budget format
  = Some (scan_scales img (image_size img) budget format resize_scales None).
Proof.
  unfold resize_and_compress_image.
  destruct (image_size img) as [w h].
  apply (resize_loop_scan img w h budget format 9).
  - unfold resize_fuel. lia.
  - vm_compute. reflexivity.
  - vm_compute. reflexivity.
Qed.

Lemma scan_scales_some (img : image) (size : Z * Z) (budget : Q) (format : string)
    (scales : list float) :
  forall sizes buf0,
    scaled_sizes size scales = inr sizes ->
    scan_scales img size budget format scales (Some buf0)
    = inr (match find (fun buf => within_budget buf budget)
                      (resized_buffers img format sizes) with
           | Some buf => buf
           | None => last (resized_buffers img format sizes) buf0
           end).
Proof.
  induction scales as [| s rest IH]; intros sizes buf0 Hsizes.
  - injection Hsizes as <-. reflexivity.
  - cbn [scaled_sizes] in Hsizes. cbn [scan_scales].
    destruct (int_of_scaled (fst size) s) as [e | nw]; [discriminate |].
    destruct (int_of_scaled (snd size) s) as [e | nh]; [discriminate |].
    destruct (scaled_sizes size rest) as [e | sizes'] eqn:Hrest; [discriminate |].
    injection Hsizes as <-. cbv zeta.
    unfold resized_buffers. cbn [map find].
    fold (resized_buffers img format sizes').
    destruct (within_budget (save (image_resize img (nw, nh)) format 75) budget);
      [reflexivity |].
    rewrite (IH sizes' _ eq_refl). now rewrite last_cons_default.
Qed.

Lemma scan_scales_first_fit_or_last (img : image) (size : Z * Z) (budget : Q)
    (format : string) (s : float) (rest : list float) (sizes : list (Z * Z)) :
  scaled_sizes size (s :: rest) = inr sizes ->
  scan_scales img size budget format (s :: rest) None
  = inr (first_fit_or_last budget (resized_buffers img format sizes)).
Proof.
  intros Hsizes. cbn [scaled_sizes] in Hsizes. cbn [scan_scales].
  destruct (int_of_scaled (fst size) s) as [e | nw]; [discriminate |].
  destruct (int_of_scaled (snd size) s) as [e | nh]; [discriminate |].
  destruct (scaled_sizes size rest) as [e | sizes'] eqn:Hrest; [discriminate |].
  injection Hsizes as <-. cbv zeta.
  unfold first_fit_or_last, resized_buffers. cbn [map find].
  fold (resized_buffers img format sizes').
  destruct (within_budget (save (image_resize img (nw, nh)) format 75) budget);
    [reflexivity |].
  rewrite (scan_scales_some img size budget format rest sizes' _ Hrest).
  now rewrite last_cons_default.
Qed.


(** A frame for which the first phase finds nothing goes to the second
    phase, whose result is the first resized buffer that fits, or the last
    one. *)
Lemma compress_second_phase (pil_img : image) (target_size_mb : Q)
    (format : string) (sizes : list (Z * Z)) :
  (forall q, In q quality_grid ->
             within_budget (save (prepare pil_img format) format q)
               (target_size_mb * 1024 * 1024)%Q = false) ->
  scaled_sizes (image_size (prepare pil_img format)) resize_scales = inr sizes ->
  compress_image_to_target_size pil_img target_size_mb format
  = Some (inr (first_fit_or_last (target_size_mb * 1024 * 1024)%Q
                 (resized_buffers (prepare pil_img format) format sizes))).
Proof.
  intros Hnone Hsizes. unfold compress_image_to_target_size.
  rewrite quality_loop_first_fit. unfold first_fit.
  rewrite (find_none_all _ quality_grid Hnone).
  cbn [option_map]. rewrite resize_and_compress_image_scan.
  now rewrite (scan_scales_first_fit_or_last _ _ _ _ _ _ sizes Hsizes).
Qed.
(** Both loops end: the adapter returns a buffer or raises, whatever the
    frame, the budget and the format. *)
Lemma compress_image_to_target_size_returns (pil_img : image)
    (target_size_mb : Q) (format : string) :
  exists outcome,
    compress_image_to_target_size pil_img target_size_mb format = Some outcome.
Proof.
  unfold compress_image_to_target_size.
  destruct (quality_loop (prepare pil_img format)
              (target_size_mb * 1024 * 1024)%Q format 95) as [buf |].
  - now exists (inr buf).
  - rewrite resize_and_compress_image_scan. eexists. reflexivity.
Qed.
End AdapterFacts.

(** ** The scaled sizes *)

(** The scale factors as Python prints them.  The subtractions are binary64
    subtractions, so the ninth value is a little above [0.1]: the test
    [scale_factor > 0.1] still holds for it and the 10% step is taken; the
    value after it is about [1.4e-16] and ends the loop. *)
Lemma resize_scales_values :
  resize_scales
  = [0.9; 0.8; 0.7000000000000001; 0.6000000000000001; 0.5000000000000001;
     0.40000000000000013; 0.30000000000000016; 0.20000000000000015;
     0.10000000000000014]%float
  /\ forallb (PrimFloat.ltb 0.1) resize_scales = true
  /\ PrimFloat.ltb 0.1 (scale_after 9 0.9) = false.
Proof. repeat split; vm_compute; reflexivity. Qed.


Lemma all_below_spec (n : nat) (f : Z -> bool) :
  all_below n f = true -> forall z, 0 <= z < Z.of_nat n -> f z = true.
Proof.
  induction n as [| n IH]; intros Hall z Hz; [lia |].
  cbn [all_below] in Hall. apply andb_prop in Hall as [Hn Hall].
  destruct (Z.eq_dec z (Z.of_nat n)) as [-> | Hne]; [exact Hn |].
  apply IH; [exact Hall | lia].
Qed.

(** For a side below 4096 the nine products are exact tenths, rounded down:
    the error of the binary64 scale factors never reaches an integer. *)
Lemma scaled_side_tenths (n : Z) :
  0 <= n < Z.of_nat checked_sides ->
  forallb (scaled_is_tenths n) (combine resize_scales tenths) = true.
Proof.
  revert n. apply all_below_spec. vm_compute. reflexivity.
Qed.

Lemma scaled_sizes_checked (w h : Z) (scales : list float) :
  forall ks,
    forallb (scaled_is_tenths w) (combine scales ks) = true ->
    forallb (scaled_is_tenths h) (combine scales ks) = true ->
    List.length scales = List.length ks ->
    scaled_sizes (w, h) scales = inr (map (fun k => (w * k / 10, h * k / 10)) ks).
Proof.
  induction scales as [| s rest IH]; intros [| k ks] Hw Hh Hlen;
    try discriminate; [reflexivity |].
  cbn [combine forallb] in Hw, Hh.
  apply andb_prop in Hw as [Hw Hws]. apply andb_prop in Hh as [Hh Hhs].
  unfold scaled_is_tenths in Hw, Hh. cbn [fst snd] in Hw, Hh.
  cbn [scaled_sizes fst snd map].
  destruct (int_of_scaled w s) as [e | nw]; [discriminate |].
  destruct (int_of_scaled h s) as [e | nh]; [discriminate |].
  apply Z.eqb_eq in Hw, Hh. subst nw nh.
  rewrite (IH ks Hws Hhs) by (cbn in Hlen; lia). reflexivity.
Qed.

(** The sizes of the second phase for a frame with sides below 4096:
    90%, 80%, ..., 10% of each side, rounded down. *)
Lemma scaled_sizes_tenths (w h : Z) :
  0 <= w < Z.of_nat checked_sides ->
  0 <= h < Z.of_nat checked_sides ->
  scaled_sizes (w, h) resize_scales
  = inr (map (fun k => (w * k / 10, h * k / 10)) tenths).
Proof.
  intros Hw Hh. apply scaled_sizes_checked.
  - now apply scaled_side_tenths.
  - now apply scaled_side_tenths.
  - reflexivity.
Qed.

Section SecondPhase.
Context {image : Type} `{PIL image}.


(** The second phase on a frame with sides below 4096: the sizes tried are
    90%, 80%, ..., 10% of the sides, rounded down. *)
Lemma compress_second_phase_tenths (pil_img : image) (target_size_mb : Q)
    (format : string) :
  0 <= fst (image_size (prepare pil_img format)) < Z.of_nat checked_sides ->
  0 <= snd (image_size (prepare pil_img format)) < Z.of_nat checked_sides ->
  (forall q, In q quality_grid ->
             within_budget (save (prepare pil_img format) format q)
               (target_size_mb * 1024 * 1024)%Q = false) ->
  compress_image_to_target_size pil_img target_size_mb format
  = Some (inr (first_fit_or_last (target_size_mb * 1024 * 1024)%Q
                 (resized_buffers (prepare pil_img format) format
                    (map (fun k =>
                            (fst (image_size (prepare pil_img format)) * k / 10,
                             snd (image_size (prepare pil_img format)) * k / 10))
                         tenths)))).
Proof.
  intros Hw Hh Hnone. apply compress_second_phase; [exact Hnone |].
  destruct (image_size (prepare pil_img format)) as [w h].
  now apply scaled_sizes_tenths.
Qed.

End SecondPhase.


(* ===================================================================== *)
(** * The theorems at concrete inputs *)
(* ===================================================================== *)

Lemma stub_answers_read (setting : string) (rec : list (string * json)) :
  @answers _ Stub.camera_stub (setting_read Stub.cam setting) (Stub.start rec)
    (JObj rec) (dev (Stub.start rec)).
Proof. eexists. split; [reflexivity | split; reflexivity]. Defined.

(** The ISO record offers 100, 200 and 400: asking for 800 is refused with
    the list in the message, after the read alone. *)
Lemma set_camera_setting_value_outside_ability_witness :
  @set_camera_setting _ Stub.camera_stub Stub.repr_stub Stub.cam "iso" "800"
    (Stub.start Stub.iso_record)
  = (json_dumps (error_record "invalid_parameter"
       "Invalid value '800' for iso. Available options: ['100', '200', '400']"),
     {| dev := dev (Stub.start Stub.iso_record);
        trace := [setting_read Stub.cam "iso"] |}).
Proof.
  refine (proj1 (proj2 (@set_camera_setting_value_outside_ability
            _ Stub.camera_stub Stub.repr_stub Stub.cam "iso" "800"
            (Stub.start Stub.iso_record) Stub.iso_record
            [JStr "100"; JStr "200"; JStr "400"]
            (dev (Stub.start Stub.iso_record))
            (stub_answers_read "iso" Stub.iso_record) eq_refl eq_refl) eq_refl _)).
  discriminate.
Defined.

(** Asking for 200 is accepted: one read, one write, previous value 100. *)
Lemma set_setting_value_in_ability_witness :
  @set_setting _ Stub.camera_stub Stub.repr_stub Stub.cam "iso" "200"
    (Stub.start Stub.iso_record)
  = (inr (update_record "iso" (JStr "100") "200"),
     {| dev := {| Stub.setting_record :=
                    [("value", JStr "200");
                     ("ability", JArr [JStr "100"; JStr "200"; JStr "400"])];
                  Stub.frame := Stub.frame (dev (Stub.start Stub.iso_record)) |};
        trace := [setting_read Stub.cam "iso"; setting_write Stub.cam "iso" "200"] |}).
Proof.
  refine (proj1 (@set_setting_value_in_ability
            _ Stub.camera_stub Stub.repr_stub Stub.cam "iso" "200"
            (Stub.start Stub.iso_record) Stub.iso_record
            [JStr "100"; JStr "200"; JStr "400"]
            (dev (Stub.start Stub.iso_record)) _ _
            (stub_answers_read "iso" Stub.iso_record) eq_refl eq_refl eq_refl eq_refl)).
Defined.

(** A record without [ability]: any value goes to the camera. *)
Lemma set_setting_without_ability_witness :
  @set_setting _ Stub.camera_stub Stub.repr_stub Stub.cam "av" "anything"
    (Stub.start Stub.no_ability_record)
  = (inr (update_record "av" (JStr "auto") "anything"),
     {| dev := {| Stub.setting_record := [("value", JStr "anything")];
                  Stub.frame := Stub.frame (dev (Stub.start Stub.no_ability_record)) |};
        trace := [setting_read Stub.cam "av";
                  setting_write Stub.cam "av" "anything"] |}).
Proof.
  exact (@set_setting_without_ability
           _ Stub.camera_stub Stub.repr_stub Stub.cam "av" "anything"
           (Stub.start Stub.no_ability_record) Stub.no_ability_record
           (dev (Stub.start Stub.no_ability_record))
           (stub_answers_read "av" Stub.no_ability_record) eq_refl).
Defined.

(** An unknown name on the read path. *)
Lemma unrecognized_name_witness :
  @get_camera_settings _ Stub.camera_stub Stub.repr_stub Stub.cam "zoom"
    (Stub.start Stub.iso_record)
  = (json_dumps (error_record "invalid_parameter"
       "Invalid setting 'zoom'. Valid options: ['av', 'tv', 'iso', 'shootingmodedial']"),
     Stub.start Stub.iso_record).
Proof.
  refine (proj1 (@unrecognized_name_or_empty_value_invalid_parameter
            _ Stub.camera_stub Stub.repr_stub Stub.cam "zoom" ""
            (Stub.start Stub.iso_record)) _ _).
  - discriminate.
  - cbn. intuition discriminate.
Defined.

Lemma get_camera_settings_all_projection_witness :
  @get_camera_settings _ Stub.camera_stub Stub.repr_stub Stub.cam "all"
    (Stub.start scenario_document)
  = (json_dumps (JObj [("av", JObj [("value", JStr "5.6");
                                    ("ability", JArr [JStr "4.0"; JStr "5.6"; JStr "8.0"])])]),
     {| dev := dev (Stub.start scenario_document);
        trace := [get_request Stub.cam settings_path] |}).
Proof.
  refine (proj1 (@get_camera_settings_all_projection
            _ Stub.camera_stub Stub.repr_stub Stub.cam
            (Stub.start scenario_document) scenario_document
            (dev (Stub.start scenario_document)) _)).
  eexists. split; [reflexivity | split; reflexivity].
Defined.

(** A frame of two bytes through the live-view path. *)
Lemma liveview_base64_round_trip_witness :
  b64decode (b64encode_text (Stub.frame (dev (Stub.start Stub.iso_record))) ++ newline)
  = inr (Stub.frame (dev (Stub.start Stub.iso_record))).
Proof.
  refine (proj1 (proj2 (@liveview_base64_round_trip
            _ Stub.camera_stub _ StubPIL.pil_area Stub.cam
            (Stub.start Stub.iso_record) _ (dev (Stub.start Stub.iso_record))
            eq_refl eq_refl))).
Defined.



(* ===================================================================== *)
(** * Further properties: failures of the camera, malformed records *)
(* ===================================================================== *)

Arguments liveview_init : simpl never.
Arguments get_liveview_image : simpl never.
Arguments init_live_view : simpl never.

Section RunFacts.
Context {D : Type} `{Camera D} `{PyRepr}.
Variable self : CanonCamera.

(** Every outcome of [_get]. *)
Lemma _get_fails (path : string) (w : world D) (e : exn) (d' : D) :
  request_fails (get_request self path) w e d' ->
  _get self path w = (inl e, after w d' [get_request self path]).
Proof.
  intros [Hh | (resp & Hh & Hs & ->)]; rewrite _get_run, Hh; [reflexivity |].
  now rewrite Hs.
Qed.

Lemma get_setting_fails (setting_name : string) (w : world D) (e : exn) (d' : D) :
  read_fails (setting_read self setting_name) w e d' ->
  get_setting self setting_name w
  = (inl e, after w d' [setting_read self setting_name]).
Proof.
  intros [Hreq | (resp & Hh & Hs & Hj)]; unfold get_setting, bind.
  - fold (setting_read self setting_name) in *.
    now rewrite (_get_fails _ _ _ _ Hreq).
  - rewrite _get_run. fold (setting_read self setting_name).
    rewrite Hh, Hs, Hj. reflexivity.
Qed.

Lemma get_all_settings_fails (w : world D) (e : exn) (d' : D) :
  read_fails (get_request self settings_path) w e d' ->
  get_all_settings self w = (inl e, after w d' [get_request self settings_path]).
Proof.
  intros [Hreq | (resp & Hh & Hs & Hj)]; unfold get_all_settings, bind.
  - now rewrite (_get_fails _ _ _ _ Hreq).
  - rewrite _get_run, Hh, Hs, Hj. reflexivity.
Qed.

(** A read ends in exactly one of two ways. *)
Lemma read_outcome (r : request) (w : world D) :
  (exists e, read_fails r w e (snd (handle r (dev w))))
  \/ (exists doc, answers r w doc (snd (handle r (dev w)))).
Proof.
  unfold read_fails, request_fails, answers.
  destruct (handle r (dev w)) as [[e | resp] d'] eqn:Hh; cbn [snd].
  - left. exists e. auto.
  - destruct (is_error_status resp) eqn:Hs.
    + left. eexists. left. right. exists resp. auto.
    + destruct (resp_json resp) as [e | doc] eqn:Hj.
      * left. exists e. right. exists resp. auto.
      * right. exists doc, resp. auto.
Qed.

(** [set_setting] once the record is read and the value is not refused: what
    is left is the write, then [current.get("value")]. *)
Lemma set_setting_not_rejected (setting_name value : string) (w : world D)
    (current : json) (d1 : D) :
  answers (setting_read self setting_name) w current d1 ->
  value_rejected current value = inr false ->
  set_setting self setting_name value w
  = match handle (setting_write self setting_name value) d1 with
    | (inl e, d2) =>
        (inl e, after w d2 [setting_read self setting_name;
                            setting_write self setting_name value])
    | (inr resp2, d2) =>
        (if is_error_status resp2
         then inl (RequestException (http_error_msg resp2))
         else match py_get current "value" with
              | inl e => inl e
              | inr previous => inr (update_record setting_name previous value)
              end,
         after w d2 [setting_read self setting_name;
                     setting_write self setting_name value])
    end.
Proof.
  intros Hans Hrej.
  unfold set_setting, bind. rewrite (get_setting_run _ _ _ _ _ Hans).
  rewrite Hrej. cbn [lift ret].
  rewrite _put_run. cbn [after dev].
  change (put_request self _ _) with (setting_write self setting_name value).
  destruct (handle (setting_write self setting_name value) d1) as [[e | resp2] d2].
  - rewrite after_after. reflexivity.
  - unfold raise_for_status.
    destruct (is_error_status resp2) eqn:Hs; cbn [fst snd]; rewrite ?Hs;
      cbn [raise ret]; rewrite after_after; [reflexivity |].
    destruct (py_get current "value"); reflexivity.
Qed.

(** [set_setting] once the record is read and the value is refused, or the
    test itself raises: nothing is written. *)
Lemma set_setting_stops (setting_name value : string) (w : world D)
    (current : json) (d1 : D) :
  answers (setting_read self setting_name) w current d1 ->
  value_rejected current value <> inr false ->
  exists e,
    set_setting self setting_name value w
    = (inl e, after w d1 [setting_read self setting_name]).
Proof.
  intros Hans Hrej.
  unfold set_setting, bind. rewrite (get_setting_run _ _ _ _ _ Hans).
  destruct (value_rejected current value) as [e | [|]]; cbn [lift ret raise].
  - now exists e.
  - destruct (py_getitem current "ability") as [e | ability]; cbn [lift ret raise];
      eexists; reflexivity.
  - congruence.
Qed.
(** A failed read stops [set_setting] before the write. *)
Lemma get_setting_fails_set (setting_name value : string) (w : world D)
    (e : exn) (d' : D) :
  read_fails (setting_read self setting_name) w e d' ->
  set_setting self setting_name value w
  = (inl e, after w d' [setting_read self setting_name]).
Proof.
  intros Hfail. unfold set_setting, bind.
  now rewrite (get_setting_fails _ _ _ _ Hfail).
Qed.
End RunFacts.

Lemma dict_get_set_same (key : string) (v : json) (d : list (string * json)) :
  dict_get key (dict_set key v d) = Some v.
Proof.
  induction d as [| [k v0] d IH]; cbn.
  - now rewrite String.eqb_refl.
  - destruct (String.eqb k key) eqn:Hk; cbn; now rewrite Hk.
Qed.

Lemma dict_get_set_other (key k : string) (v : json) (d : list (string * json)) :
  k <> key -> dict_get k (dict_set key v d) = dict_get k d.
Proof.
  intros Hne. induction d as [| [k0 v0] d IH]; cbn.
  - destruct (String.eqb_spec key k); [congruence | reflexivity].
  - destruct (String.eqb_spec k0 key) as [-> | Hk0]; cbn.
    + destruct (String.eqb_spec key k); [congruence | reflexivity].
    + destruct (String.eqb k0 k); [reflexivity | exact IH].
Qed.

Lemma dict_set_keys (key : string) (v : json) (d : list (string * json)) :
  forall k, In k (map fst (dict_set key v d)) <-> k = key \/ In k (map fst d).
Proof.
  intros k. induction d as [| [k0 v0] d IH]; cbn; [intuition |].
  destruct (String.eqb_spec k0 key) as [-> | Hne]; cbn; [intuition |].
  rewrite IH. intuition.
Qed.

Section ReadToolFacts.
Context {D : Type} `{Camera D} `{PyRepr}.
Variable camera : CanonCamera.

Lemma get_setting_trace (setting_name : string) (w : world D) :
  trace (snd (get_setting camera setting_name w))
  = (trace w ++ [setting_read camera setting_name])%list.
Proof.
  unfold get_setting, bind.
  pose proof (_get_trace camera (settings_path ++ "/" ++ setting_name) w) as Ht.
  fold (setting_read camera setting_name) in Ht.
  destruct (_get camera (settings_path ++ "/" ++ setting_name) w)
    as [[e | resp] w1]; cbn [snd] in Ht |- *; [exact Ht |].
  unfold lift. destruct (resp_json resp); exact Ht.
Qed.

Lemma get_all_settings_trace (w : world D) :
  trace (snd (get_all_settings camera w))
  = (trace w ++ [get_request camera settings_path])%list.
Proof.
  unfold get_all_settings, bind.
  pose proof (_get_trace camera settings_path w) as Ht.
  destruct (_get camera settings_path w) as [[e | resp] w1];
    cbn [snd] in Ht |- *; [exact Ht |].
  unfold lift. destruct (resp_json resp); exact Ht.
Qed.

Lemma read_request_plain (setting : string) :
  is_plain_read (read_request camera setting).
Proof.
  unfold read_request, is_plain_read. destruct (String.eqb setting "all");
    repeat split.
Qed.

(** X1. A failed read on the read path is reported by the handler of its
    exception, after the one GET: a refused connection, a timeout, or a 4xx or
    5xx status give [camera_communication_error] with the text of the
    failure. *)
Theorem get_camera_settings_failed_read
    (setting : string) (w : world D) (e : exn) (d' : D) :
  setting = "all" \/ In setting valid_settings_read ->
  read_fails (read_request camera setting) w e d' ->
  get_camera_settings camera setting w
  = (settings_handlers e, after w d' [read_request camera setting])
  /\ (forall msg, e = RequestException msg ->
        error_of (settings_handlers e)
        = Some ("camera_communication_error",
                "Failed to communicate with camera: " ++ msg)).
Proof.
  intros Hname Hfail. split; [| intros msg ->; reflexivity].
  unfold get_camera_settings, get_camera_settings_try, read_request in *.
  destruct (String.eqb_spec setting "all") as [-> | Hne].
  - unfold bind. now rewrite (get_all_settings_fails _ _ _ _ Hfail).
  - destruct Hname as [-> | Hin]; [congruence |].
    apply str_in_list_In in Hin. rewrite Hin. cbn [negb].
    unfold bind. now rewrite (get_setting_fails _ _ _ _ _ Hfail).
Qed.

(** X2. A named read that the camera answers with a record returns the
    record with [setting_name] set to the requested name: a [setting_name]
    reported by the camera is overwritten, every other key keeps its value,
    and no key is lost. *)
Theorem get_camera_settings_names_the_record
    (setting : string) (w : world D) (rec : list (string * json)) (d' : D) :
  In setting valid_settings_read ->
  answers (setting_read camera setting) w (JObj rec) d' ->
  get_camera_settings camera setting w
  = (json_dumps (JObj (dict_set "setting_name" (JStr setting) rec)),
     after w d' [setting_read camera setting])
  /\ dict_get "setting_name" (dict_set "setting_name" (JStr setting) rec)
     = Some (JStr setting)
  /\ (forall k, k <> "setting_name" ->
        dict_get k (dict_set "setting_name" (JStr setting) rec) = dict_get k rec)
  /\ (forall k, In k (map fst rec) ->
        In k (map fst (dict_set "setting_name" (JStr setting) rec))).
Proof.
  intros Hin Hans. split; [| split; [| split]].
  - rewrite get_camera_settings_named.
    + now rewrite (get_setting_run _ _ _ _ _ Hans).
    + intros ->. cbn in Hin. intuition discriminate.
    + now apply str_in_list_In.
  - apply dict_get_set_same.
  - intros k Hk. now apply dict_get_set_other.
  - intros k Hk. apply dict_set_keys. now right.
Qed.

(** X3. A named read that the camera answers with JSON that is not an
    object (a list, a string, a number, [null]) is an [internal_error]: the
    name cannot be stored in it. *)
Theorem get_camera_settings_record_not_object
    (setting : string) (w : world D) (doc : json) (d' : D) :
  In setting valid_settings_read ->
  answers (setting_read camera setting) w doc d' ->
  is_object doc = false ->
  exists msg,
    get_camera_settings camera setting w
    = (json_dumps (error_record "internal_error" msg),
       after w d' [setting_read camera setting]).
Proof.
  intros Hin Hans Hobj.
  rewrite get_camera_settings_named.
  - rewrite (get_setting_run _ _ _ _ _ Hans).
    destruct doc; try discriminate; eexists; reflexivity.
  - intros ->. cbn in Hin. intuition discriminate.
  - now apply str_in_list_In.
Qed.

(** X4. The read path only reads: whatever the name and whatever the camera
    does, [get_camera_settings] sends at most one request, and that request is
    a GET without a body and with the timeout of ten seconds.  It sends none
    exactly when the name is refused. *)
Theorem get_camera_settings_only_reads (setting : string) (w : world D) :
  exists sent,
    trace (snd (get_camera_settings camera setting w)) = (trace w ++ sent)%list
    /\ Forall is_plain_read sent
    /\ (setting = "all" \/ In setting valid_settings_read ->
        sent = [read_request camera setting])
    /\ (~ (setting = "all" \/ In setting valid_settings_read) -> sent = []).
Proof.
  unfold get_camera_settings, get_camera_settings_try.
  destruct (String.eqb_spec setting "all") as [-> | Hne].
  - exists [read_request camera "all"]. split; [| split; [| split]].
    + unfold bind. pose proof (get_all_settings_trace w) as Ht.
      destruct (get_all_settings camera w) as [[e | doc] w1]; cbn [snd] in Ht |- *;
        [exact Ht |].
      unfold lift. destruct (dict_comprehension keys_to_keep doc []); exact Ht.
    + constructor; [apply read_request_plain | constructor].
    + reflexivity.
    + intros Hno. elim Hno. now left.
  - destruct (str_in_list setting valid_settings_read) eqn:Hin; cbn [negb].
    + exists [read_request camera setting]. split; [| split; [| split]].
      * unfold bind, read_request. apply String.eqb_neq in Hne. rewrite Hne.
        pose proof (get_setting_trace setting w) as Ht.
        destruct (get_setting camera setting w) as [[e | doc] w1];
          cbn [snd] in Ht |- *; [exact Ht |].
        unfold lift.
        destruct (py_setitem doc "setting_name" (JStr setting)); exact Ht.
      * constructor; [apply read_request_plain | constructor].
      * reflexivity.
      * intros Hno. elim Hno. right. now apply str_in_list_In.
    + exists []. split; [| split; [| split]].
      * cbn. now rewrite app_nil_r.
      * constructor.
      * intros [-> | Hin']; [congruence |].
        apply str_in_list_In in Hin'. congruence.
      * reflexivity.
Qed.
End ReadToolFacts.

Lemma value_rejected_member (rec : list (string * json)) (ability : list json)
    (value : string) :
  value_rejected (JObj rec) value = inr false ->
  dict_get "ability" rec = Some (JArr ability) ->
  existsb (py_eq_str value) ability = true.
Proof.
  unfold value_rejected. cbn. intros Hrej Hab. rewrite Hab in Hrej. cbn in Hrej.
  destruct (existsb (py_eq_str value) ability); [reflexivity | discriminate].
Qed.

Lemma no_string_no_member (value : string) (ability : list json) :
  forallb not_a_string ability = true ->
  existsb (py_eq_str value) ability = false.
Proof.
  induction ability as [| j ability IH]; cbn; [reflexivity |].
  intros Hall. apply andb_prop in Hall as [Hj Hall].
  rewrite (IH Hall). now destruct j.
Qed.

Section WriteToolFacts.
Context {D : Type} `{Camera D} `{PyRepr}.
Variable camera : CanonCamera.

(** X5. Read before write, at most once.  Whatever the arguments and whatever
    the camera does, [set_camera_setting] sends nothing, or the read of the
    setting, or that read followed by one write of the requested value.  It
    writes only for a name of its list and a value that is not empty, after
    the read was answered with JSON that does not refuse the value: if that
    record holds an [ability] list, the value is in it. *)
Theorem set_camera_setting_reads_before_it_writes
    (setting value : string) (w : world D) :
  exists sent,
    trace (snd (set_camera_setting camera setting value w)) = (trace w ++ sent)%list
    /\ Forall (fun r => req_timeout r = Some 10) sent
    /\ (sent = []
        \/ sent = [setting_read camera setting]
        \/ (sent = [setting_read camera setting; setting_write camera setting value]
            /\ In setting valid_settings_write
            /\ value <> ""
            /\ exists current d1,
                 answers (setting_read camera setting) w current d1
                 /\ value_rejected current value = inr false
                 /\ forall rec ability,
                      current = JObj rec ->
                      dict_get "ability" rec = Some (JArr ability) ->
                      existsb (py_eq_str value) ability = true)).
Proof.
  destruct (str_in_list setting valid_settings_write) eqn:Hin.
  2:{ exists []. rewrite set_camera_setting_bad_name by assumption.
      cbn. rewrite app_nil_r. auto. }
  destruct (String.eqb_spec value "") as [-> | Hne].
  { exists []. rewrite set_camera_setting_no_value by assumption.
    cbn. rewrite app_nil_r. auto. }
  rewrite set_camera_setting_delegates by assumption.
  assert (Hread : Forall (fun r => req_timeout r = Some 10)
                    [setting_read camera setting])
    by (repeat constructor).
  destruct (read_outcome (setting_read camera setting) w)
    as [[e Hfail] | [current Hans]].
  - exists [setting_read camera setting].
    rewrite (get_setting_fails_set _ _ _ _ _ _ Hfail). cbn. auto.
  - destruct (value_rejected current value) as [e | [|]] eqn:Hrej.
    + exists [setting_read camera setting].
      destruct (set_setting_stops camera setting value w current _ Hans) as [e' ->];
        [congruence | cbn; auto].
    + exists [setting_read camera setting].
      destruct (set_setting_stops camera setting value w current _ Hans) as [e' ->];
        [congruence | cbn; auto].
    + exists [setting_read camera setting; setting_write camera setting value].
      rewrite (set_setting_not_rejected camera setting value w current _ Hans Hrej).
      split; [| split; [repeat constructor |]].
      * destruct (handle (setting_write camera setting value)
                    (snd (handle (setting_read camera setting) (dev w))))
          as [[e | resp2] d2]; [reflexivity |].
        destruct (is_error_status resp2); [reflexivity |].
        destruct (py_get current "value"); reflexivity.
      * right. right. split; [reflexivity |].
        split; [now apply str_in_list_In |]. split; [assumption |].
        exists current, (snd (handle (setting_read camera setting) (dev w))).
        split; [assumption |]. split; [assumption |].
        intros rec ability -> Hab. now apply (value_rejected_member rec).
Qed.
End WriteToolFacts.

Section WriteOutcomes.
Context {D : Type} `{Camera D} `{PyRepr}.
Variable camera : CanonCamera.

(** X6. When the read before the write fails, [set_camera_setting] reports
    that failure and writes nothing: the read is the only request. *)
Theorem set_camera_setting_failed_read
    (setting value : string) (w : world D) (e : exn) (d' : D) :
  In setting valid_settings_write ->
  value <> "" ->
  read_fails (setting_read camera setting) w e d' ->
  set_camera_setting camera setting value w
  = (settings_handlers e, after w d' [setting_read camera setting]).
Proof.
  intros Hin Hne Hfail. apply str_in_list_In in Hin.
  rewrite set_camera_setting_delegates by assumption.
  now rewrite (get_setting_fails_set _ _ _ _ _ _ Hfail).
Qed.

(** X7. When the value passes the check and the write fails (the request
    raises, or the camera answers 4xx or 5xx), [set_camera_setting] reports
    the failure of the write; the write was sent once and is not repeated. *)
Theorem set_camera_setting_failed_write
    (setting value : string) (w : world D) (current : json) (d1 d2 : D)
    (e : exn) :
  In setting valid_settings_write ->
  value <> "" ->
  answers (setting_read camera setting) w current d1 ->
  value_rejected current value = inr false ->
  request_fails (setting_write camera setting value)
    (after w d1 [setting_read camera setting]) e d2 ->
  set_camera_setting camera setting value w
  = (settings_handlers e,
     after w d2 [setting_read camera setting; setting_write camera setting value]).
Proof.
  intros Hin Hne Hans Hrej Hfail. apply str_in_list_In in Hin.
  rewrite set_camera_setting_delegates by assumption.
  rewrite (set_setting_not_rejected camera setting value w current d1 Hans Hrej).
  destruct Hfail as [Hh | (resp2 & Hh & Hs & ->)]; cbn [after dev] in Hh;
    rewrite Hh; [reflexivity |].
  now rewrite Hs.
Qed.

(** X8. When the value passes the check and the camera accepts the write,
    [set_camera_setting] returns the update record, with the value the read
    reported (or [null] when the record has no [value]) as
    [previous_value]. *)
Theorem set_camera_setting_success
    (setting value : string) (w : world D) (current : list (string * json))
    (d1 d2 : D) (resp2 : response) :
  In setting valid_settings_write ->
  value <> "" ->
  answers (setting_read camera setting) w (JObj current) d1 ->
  value_rejected (JObj current) value = inr false ->
  handle (setting_write camera setting value) d1 = (inr resp2, d2) ->
  is_error_status resp2 = false ->
  set_camera_setting camera setting value w
  = (json_dumps (update_record setting (reported_value current) value),
     after w d2 [setting_read camera setting; setting_write camera setting value])
  /\ (dict_get "value" current = None ->
      reported_value current = JNull).
Proof.
  intros Hin Hne Hans Hrej Hh Hs. apply str_in_list_In in Hin.
  split; [| intros Hnone; unfold reported_value; now rewrite Hnone].
  rewrite set_camera_setting_delegates by assumption.
  rewrite (set_setting_not_rejected camera setting value w _ d1 Hans Hrej).
  rewrite Hh, Hs. reflexivity.
Qed.

(** X9. A record that is not an object is noticed too late.  When the read
    is answered with a JSON list or string that passes the test on [ability],
    the write is sent first; if the camera accepts it, the tool then fails on
    [current.get] and answers [internal_error], although the value was
    written. *)
Theorem set_camera_setting_writes_before_it_fails
    (setting value : string) (w : world D) (current : json)
    (d1 d2 : D) (resp2 : response) :
  In setting valid_settings_write ->
  value <> "" ->
  answers (setting_read camera setting) w current d1 ->
  is_object current = false ->
  value_rejected current value = inr false ->
  handle (setting_write camera setting value) d1 = (inr resp2, d2) ->
  is_error_status resp2 = false ->
  exists msg,
    set_camera_setting camera setting value w
    = (json_dumps (error_record "internal_error" msg),
       after w d2 [setting_read camera setting; setting_write camera setting value]).
Proof.
  intros Hin Hne Hans Hobj Hrej Hh Hs. apply str_in_list_In in Hin.
  rewrite set_camera_setting_delegates by assumption.
  rewrite (set_setting_not_rejected camera setting value w _ d1 Hans Hrej).
  rewrite Hh, Hs.
  destruct current; try discriminate; eexists; reflexivity.
Qed.

(** X10. Values are compared as strings.  When the [ability] list of the
    record holds no string (numbers, or nothing at all), every value is
    refused with [invalid_parameter], and nothing is written. *)
Theorem set_camera_setting_ability_without_strings
    (setting value : string) (w : world D) (current : list (string * json))
    (ability : list json) (d1 : D) :
  In setting valid_settings_write ->
  value <> "" ->
  answers (setting_read camera setting) w (JObj current) d1 ->
  dict_get "ability" current = Some (JArr ability) ->
  forallb not_a_string ability = true ->
  set_camera_setting camera setting value w
  = (json_dumps (error_record "invalid_parameter"
                   (invalid_value_msg value setting (JArr ability))),
     after w d1 [setting_read camera setting]).
Proof.
  intros Hin Hne Hans Hab Hall. apply str_in_list_In in Hin.
  rewrite set_camera_setting_delegates by assumption.
  now rewrite (set_setting_refuses camera setting value w current ability d1 Hans Hab
                 (no_string_no_member value ability Hall)).
Qed.
End WriteOutcomes.

(* ===================================================================== *)
(** * Further properties: start-up and live view *)
(* ===================================================================== *)

Section StartupFacts.
Context {D : Type} `{Camera D}.
Variable camera : CanonCamera.

Lemma init_live_view_run (liveviewsize cameradisplay : string) (w : world D) :
  init_live_view camera liveviewsize cameradisplay w
  = match handle (liveview_init camera liveviewsize cameradisplay) (dev w) with
    | (inl e, d') =>
        (inl e, after w d' [liveview_init camera liveviewsize cameradisplay])
    | (inr resp, d') =>
        (inr (status_code resp),
         after w d' [liveview_init camera liveviewsize cameradisplay])
    end.
Proof.
  unfold init_live_view, requests_post, bind.
  fold (liveview_init camera liveviewsize cameradisplay). rewrite http_run.
  destruct (handle (liveview_init camera liveviewsize cameradisplay) (dev w))
    as [[e | resp] d']; reflexivity.
Qed.

(** X11. [init_live_view] does not look at the status: when the camera
    answers the POST with a 4xx or 5xx status, the call returns that status
    and raises nothing. *)
Theorem init_live_view_returns_error_status
    (liveviewsize cameradisplay : string) (w : world D) (resp : response) (d' : D) :
  handle (liveview_init camera liveviewsize cameradisplay) (dev w) = (inr resp, d') ->
  is_error_status resp = true ->
  init_live_view camera liveviewsize cameradisplay w
  = (inr (status_code resp),
     after w d' [liveview_init camera liveviewsize cameradisplay])
  /\ 400 <= status_code resp < 600.
Proof.
  intros Hh Hs. split; [now rewrite init_live_view_run, Hh |].
  unfold is_error_status in Hs. lia.
Qed.

(** X12. The probe of [main] stops at a failed read: when the read of all
    settings fails, the live view is not started (no POST is sent) and the
    probe ends with the warning. *)
Theorem main_probe_failed_read (w : world D) (e : exn) (d' : D) :
  read_fails (get_request camera settings_path) w e d' ->
  main_probe camera w
  = (NotConnected e, after w d' [get_request camera settings_path]).
Proof.
  intros Hfail. unfold main_probe, main_try, bind.
  now rewrite (get_all_settings_fails _ _ _ _ Hfail).
Qed.

(** X13. The probe of [main] counts any answer to the POST as a success:
    once the read of all settings is answered with JSON, the probe sends the
    POST and ends with [Connected] whatever the status of the response, an
    error status included. *)
Theorem main_probe_ignores_liveview_status
    (w : world D) (doc : json) (d1 d2 : D) (resp : response) :
  answers (get_request camera settings_path) w doc d1 ->
  handle (liveview_init camera "small" "keep") d1 = (inr resp, d2) ->
  main_probe camera w
  = (Connected,
     after w d2 [get_request camera settings_path;
                 liveview_init camera "small" "keep"]).
Proof.
  intros Hans Hh. unfold main_probe, main_try, bind.
  rewrite (get_all_settings_run _ _ _ _ Hans).
  rewrite init_live_view_run. cbn [after dev]. rewrite Hh.
  cbn [ret]. now rewrite after_after.
Qed.
End StartupFacts.

Section LiveViewOutcomes.
Context {D : Type} `{Camera D} {image : Type} `{PIL image}.
Variable camera : CanonCamera.

Lemma get_liveview_image_cases (w : world D) :
  get_liveview_image camera w
  = match handle (liveview_fetch camera) (dev w) with
    | (inl e, d') => (inl e, after w d' [liveview_fetch camera])
    | (inr resp, d') =>
        (if is_error_status resp
         then inl (RequestException (http_error_msg resp))
         else inr (b64encode_text (content resp) ++ newline),
         after w d' [liveview_fetch camera])
    end.
Proof.
  unfold get_liveview_image, requests_get, bind.
  fold (liveview_fetch camera). rewrite http_run.
  destruct (handle (liveview_fetch camera) (dev w)) as [[e | resp] d'];
    cbn [fst snd]; [reflexivity |].
  unfold raise_for_status. destruct (is_error_status resp); reflexivity.
Qed.

Lemma get_liveview_image_fails (w : world D) (e : exn) (d' : D) :
  request_fails (liveview_fetch camera) w e d' ->
  get_liveview_image camera w = (inl e, after w d' [liveview_fetch camera]).
Proof.
  intros [Hh | (resp & Hh & Hs & ->)]; rewrite get_liveview_image_cases, Hh;
    [reflexivity |].
  now rewrite Hs.
Qed.

(** [get_liveview] once the frame is fetched. *)
Lemma get_liveview_fetched (w : world D) (resp : response) (d' : D) :
  handle (liveview_fetch camera) (dev w) = (inr resp, d') ->
  is_error_status resp = false ->
  get_liveview camera w
  = (match image_open (content resp) with
     | inl e => Some (ErrorText (liveview_handlers e))
     | inr pil_img =>
         match compress_image_to_target_size pil_img 1 "JPEG" with
         | None => None
         | Some (inl e) => Some (ErrorText (liveview_handlers e))
         | Some (inr data) => Some (Image data "jpeg")
         end
     end, after w d' [liveview_fetch camera]).
Proof.
  intros Hh Hs. unfold get_liveview, get_liveview_try, bind.
  rewrite get_liveview_image_cases, Hh, Hs.
  rewrite b64decode_b64encode_newline. cbn [lift ret].
  destruct (image_open (content resp)) as [e | pil_img]; [reflexivity |].
  cbn [lift ret].
  destruct (compress_image_to_target_size pil_img 1 "JPEG") as [[e | data] |];
    reflexivity.
Qed.

Lemma liveview_handlers_kind (e : exn) :
  exists kind msg,
    liveview_handlers e = json_dumps (error_record kind msg)
    /\ (kind = "camera_communication_error" \/ kind = "internal_error").
Proof. destruct e; do 2 eexists; split; try reflexivity; auto. Qed.

(** X14. Whatever the camera and the imaging library do, [get_liveview]
    sends exactly one request, the fetch of the frame with its timeout of 15
    seconds, and it answers with an image in the format [jpeg] or with an error
    record whose kind is [camera_communication_error] or [internal_error],
    never [invalid_parameter]. *)
Theorem get_liveview_one_fetch_two_error_kinds (w : world D) :
  trace (snd (get_liveview camera w)) = (trace w ++ [liveview_fetch camera])%list
  /\ req_timeout (liveview_fetch camera) = Some 15
  /\ ((exists data, fst (get_liveview camera w) = Some (Image data "jpeg"))
      \/ (exists kind msg,
            fst (get_liveview camera w)
            = Some (ErrorText (json_dumps (error_record kind msg)))
            /\ (kind = "camera_communication_error" \/ kind = "internal_error"))).
Proof.
  destruct (handle (liveview_fetch camera) (dev w)) as [[e | resp] d'] eqn:Hh.
  - assert (Hrun : get_liveview camera w
                   = (Some (ErrorText (liveview_handlers e)),
                      after w d' [liveview_fetch camera])).
    { unfold get_liveview, get_liveview_try, bind.
      now rewrite get_liveview_image_cases, Hh. }
    rewrite Hrun. split; [reflexivity |]. split; [reflexivity |]. right.
    destruct (liveview_handlers_kind e) as (kind & msg & -> & Hk).
      exists kind, msg. split; [reflexivity | exact Hk].
  - destruct (is_error_status resp) eqn:Hs.
    + assert (Hrun : get_liveview camera w
                     = (Some (ErrorText (liveview_handlers
                                (RequestException (http_error_msg resp)))),
                        after w d' [liveview_fetch camera])).
      { unfold get_liveview, get_liveview_try, bind.
        now rewrite get_liveview_image_cases, Hh, Hs. }
      rewrite Hrun. split; [reflexivity |]. split; [reflexivity |]. right.
      eexists _, _. split; [reflexivity | now left].
    + rewrite (get_liveview_fetched w resp d' Hh Hs).
      split; [reflexivity |]. split; [reflexivity |].
      destruct (image_open (content resp)) as [e | pil_img].
      * right. destruct (liveview_handlers_kind e) as (kind & msg & -> & Hk).
      exists kind, msg. split; [reflexivity | exact Hk].
      * destruct (compress_image_to_target_size_returns pil_img 1 "JPEG")
          as [[e | data] ->].
        -- right. destruct (liveview_handlers_kind e) as (kind & msg & -> & Hk).
      exists kind, msg. split; [reflexivity | exact Hk].
        -- left. now exists data.
Qed.

(** X15. When the fetch of the frame fails (the request raises, or the
    camera answers 4xx or 5xx), [get_liveview] reports the failure through its
    handlers, and nothing is decoded. *)
Theorem get_liveview_failed_fetch (w : world D) (e : exn) (d' : D) :
  request_fails (liveview_fetch camera) w e d' ->
  get_liveview camera w
  = (Some (ErrorText (liveview_handlers e)), after w d' [liveview_fetch camera])
  /\ (forall msg, e = RequestException msg ->
        error_of (liveview_handlers e)
        = Some ("camera_communication_error",
                "Failed to communicate with camera: " ++ msg)).
Proof.
  intros Hfail. split; [| intros msg ->; reflexivity].
  unfold get_liveview, get_liveview_try, bind.
  now rewrite (get_liveview_image_fails w e d' Hfail).
Qed.

(** X16. When the bytes of the frame are not an image the library can open,
    [get_liveview] answers [internal_error], also when the library raises a
    [ValueError]: this tool has no handler for it. *)
Theorem get_liveview_unreadable_frame
    (w : world D) (resp : response) (d' : D) (e : exn) :
  handle (liveview_fetch camera) (dev w) = (inr resp, d') ->
  is_error_status resp = false ->
  image_open (content resp) = inl e ->
  (forall msg, e <> RequestException msg) ->
  get_liveview camera w
  = (Some (ErrorText (json_dumps (error_record "internal_error"
                                    ("Unexpected error: " ++ exn_msg e)))),
     after w d' [liveview_fetch camera]).
Proof.
  intros Hh Hs Hopen Hnot.
  rewrite (get_liveview_fetched w resp d' Hh Hs), Hopen.
  destruct e as [m | m | m]; [now elim (Hnot m) | reflexivity | reflexivity].
Qed.
End LiveViewOutcomes.

(* ===================================================================== *)
(** * Further properties: the image size adapter *)
(* ===================================================================== *)

Lemma upper_ascii_idempotent (c : ascii) : upper_ascii (upper_ascii c) = upper_ascii c.
Proof. destruct c as [[] [] [] [] [] [] [] []]; reflexivity. Qed.

Lemma upper_idempotent (s : string) : upper (upper s) = upper s.
Proof.
  induction s as [| c s IH]; cbn; [reflexivity |].
  now rewrite upper_ascii_idempotent, IH.
Qed.

Lemma find_constant {A : Type} (b : bool) (a : A) (l : list A) :
  find (fun _ => b) (a :: l) = if b then Some a else None.
Proof.
  destruct b; [reflexivity |]. apply find_none_all. reflexivity.
Qed.

Section AdapterBounds.
Context {image : Type} `{PIL image}.



Lemma quality_loop_not_jpeg (img : image) (budget : Q) (format : string) :
  is_jpeg format = false ->
  quality_loop img budget format 95
  = if within_budget (save_png img) budget then Some (save_png img) else None.
Proof.
  intros Hpng. rewrite quality_loop_first_fit. unfold first_fit, save.
  rewrite Hpng. unfold quality_grid. rewrite find_constant.
  now destruct (within_budget (save_png img) budget).
Qed.

(** X18. Any format other than JPEG (in any case) is written as PNG, and for
    it the first phase is one test: the frame is not converted, its PNG
    encoding is the same at every quality, so it is returned if it fits and
    the second phase starts if it does not. *)
Theorem compress_not_jpeg_single_test
    (pil_img : image) (target_size_mb : Q) (format : string) :
  is_jpeg format = false ->
  prepare pil_img format = pil_img
  /\ (forall q, save pil_img format q = save_png pil_img)
  /\ compress_image_to_target_size pil_img target_size_mb format
     = if within_budget (save_png pil_img) (target_size_mb * 1024 * 1024)%Q
       then Some (inr (save_png pil_img))
       else resize_and_compress_image pil_img (target_size_mb * 1024 * 1024)%Q format.
Proof.
  intros Hpng.
  assert (Hprep : prepare pil_img format = pil_img)
    by (unfold prepare; now rewrite Hpng).
  split; [exact Hprep |]. split; [intros q; unfold save; now rewrite Hpng |].
  unfold compress_image_to_target_size. rewrite Hprep.
  rewrite (quality_loop_not_jpeg _ _ _ Hpng).
  now destruct (within_budget (save_png pil_img) (target_size_mb * 1024 * 1024)%Q).
Qed.

Lemma save_same_kind (format format' : string) :
  is_jpeg format = is_jpeg format' ->
  forall (img : image) q, save img format q = save img format' q.
Proof. intros Hk img q. unfold save. now rewrite Hk. Qed.

Lemma scan_scales_same_kind (img : image) (size : Z * Z) (budget : Q)
    (format format' : string) (scales : list float) :
  is_jpeg format = is_jpeg format' ->
  forall acc,
    scan_scales img size budget format scales acc
    = scan_scales img size budget format' scales acc.
Proof.
  intros Hk. induction scales as [| s rest IH]; intros acc; cbn [scan_scales];
    [reflexivity |].
  destruct (int_of_scaled (fst size) s); [reflexivity |].
  destruct (int_of_scaled (snd size) s); [reflexivity |].
  cbv zeta. rewrite (save_same_kind _ _ Hk).
  destruct (within_budget _ budget); [reflexivity | apply IH].
Qed.

Lemma first_fit_same_kind (img : image) (budget : Q) (format format' : string)
    (qs : list Z) :
  is_jpeg format = is_jpeg format' ->
  first_fit img budget format qs = first_fit img budget format' qs.
Proof.
  intros Hk. unfold first_fit.
  induction qs as [| q qs IH]; cbn [find]; [reflexivity |].
  rewrite (save_same_kind _ _ Hk img q).
  destruct (within_budget (save img format' q) budget); [| exact IH].
  cbn [option_map]. now rewrite (save_same_kind _ _ Hk img q).
Qed.

Lemma compress_same_kind (pil_img : image) (target_size_mb : Q)
    (format format' : string) :
  is_jpeg format = is_jpeg format' ->
  compress_image_to_target_size pil_img target_size_mb format
  = compress_image_to_target_size pil_img target_size_mb format'.
Proof.
  intros Hk. unfold compress_image_to_target_size.
  assert (Hprep : prepare pil_img format = prepare pil_img format')
    by (unfold prepare; now rewrite Hk).
  rewrite Hprep, !quality_loop_first_fit, (first_fit_same_kind _ _ _ _ _ Hk).
  destruct (first_fit (prepare pil_img format') _ format' quality_grid);
    [reflexivity |].
  rewrite !resize_and_compress_image_scan. f_equal.
  now apply scan_scales_same_kind.
Qed.

(** X19. The format is read without regard to case, and only as "JPEG or
    not": a format and its upper-case form give the same buffer, and so do
    any two formats that are both not JPEG. *)
Theorem compress_format_case_insensitive
    (pil_img : image) (target_size_mb : Q) (format format' : string) :
  compress_image_to_target_size pil_img target_size_mb (upper format)
  = compress_image_to_target_size pil_img target_size_mb format
  /\ (is_jpeg format = false -> is_jpeg format' = false ->
      compress_image_to_target_size pil_img target_size_mb format
      = compress_image_to_target_size pil_img target_size_mb format').
Proof.
  split.
  - apply compress_same_kind. unfold is_jpeg. now rewrite upper_idempotent.
  - intros Hf Hf'. apply compress_same_kind. congruence.
Qed.
End AdapterBounds.

(** X20. The sizes of the second phase are exact in spite of the binary64
    scale factors: for a frame with sides below 4096 they are 90%, 80%, ...,
    10% of each side, rounded down.  So a frame less than ten pixels wide
    reaches, at the last step, a resize to a width of 0. *)
Theorem second_phase_sizes_exact (w h : Z) :
  0 <= w < Z.of_nat checked_sides ->
  0 <= h < Z.of_nat checked_sides ->
  scaled_sizes (w, h) resize_scales
  = inr (map (fun k => (w * k / 10, h * k / 10)) tenths)
  /\ (w < 10 ->
      last (map (fun k => (w * k / 10, h * k / 10)) tenths) (w, h) = (0, h / 10)).
Proof.
  intros Hw Hh. split; [now apply scaled_sizes_tenths |].
  intros Hsmall. cbn [tenths map last].
  rewrite Z.mul_1_r, Z.mul_1_r. f_equal. apply Z.div_small. lia.
Qed.


Section LiveViewBudget.
Context {D : Type} `{Camera D} {image : Type} `{PIL image}.
Variable camera : CanonCamera.

End LiveViewBudget.

(* ===================================================================== *)
(** * Further properties: base64 text, the address of the camera *)
(* ===================================================================== *)

Lemma a2b_skip_at_start (c : ascii) (rest : string) (leftchar pads : Z)
    (bin_data : list byte) :
  outside_alphabet c = true ->
  a2b_base64_loop (String c rest) 0 leftchar pads bin_data
  = a2b_base64_loop rest 0 leftchar pads bin_data.
Proof.
  unfold outside_alphabet. intros Hout. cbn [a2b_base64_loop].
  destruct (Ascii.eqb c BASE64_PAD); [reflexivity |].
  now destruct (table_a2b_base64 c).
Qed.

Lemma a2b_only_outside (tail : string) (leftchar pads : Z) (bin_data : list byte) :
  all_chars outside_alphabet tail = true ->
  a2b_base64_loop tail 0 leftchar pads bin_data = inr bin_data.
Proof.
  induction tail as [| c tail IH]; [reflexivity |].
  cbn [all_chars]. intros Hall. apply andb_prop in Hall as [Hc Hall].
  rewrite a2b_skip_at_start by assumption. now apply IH.
Qed.

Lemma a2b_b2a_then (tail : string) (data : list byte) :
  all_chars outside_alphabet tail = true ->
  forall bin_data,
    a2b_base64_loop (b2a_base64 data ++ tail) 0 0 0 bin_data
    = inr (bin_data ++ data)%list.
Proof.
  intros Hall.
  induction data as [| a | a b | a b c rest IH] using list_ind3; intros bin_data.
  - cbn [b2a_base64 append]. rewrite a2b_only_outside by assumption.
    now rewrite app_nil_r.
  - rewrite b2a_one. unfold b64char. cbn [append].
    rewrite (a2b_step _ _ _ _ _ _ (sextet1_range a)).
    change (0 =? 0) with true. cbv iota.
    rewrite (a2b_step _ _ _ _ _ _ (sextet2_last_range a)).
    change (1 =? 0) with false. change (1 =? 1) with true. cbv iota.
    rewrite first_byte_last. reflexivity.
  - rewrite b2a_two. unfold b64char. cbn [append].
    rewrite (a2b_step _ _ _ _ _ _ (sextet1_range a)).
    change (0 =? 0) with true. cbv iota.
    rewrite (a2b_step _ _ _ _ _ _ (sextet2_range a b)).
    change (1 =? 0) with false. change (1 =? 1) with true. cbv iota.
    rewrite (a2b_step _ _ _ _ _ _ (sextet3_last_range b)).
    change (2 =? 0) with false. change (2 =? 1) with false.
    change (2 =? 2) with true. cbv iota.
    rewrite first_byte, second_left, second_byte_last.
    cbn [a2b_base64_loop]. change (Ascii.eqb BASE64_PAD BASE64_PAD) with true.
    cbv iota. change (2 <=? 3) with true. change (4 <=? 3 + (0 + 1)) with true.
    cbv iota. now rewrite <- app_assoc.
  - rewrite b2a_group. unfold b64char at 1 2 3 4. cbn [append].
    fold (b64char (sextet4 c) (b2a_base64 rest ++ tail)).
    fold (b64char (sextet3 b c) (b64char (sextet4 c) (b2a_base64 rest ++ tail))).
    fold (b64char (sextet2 a b)
            (b64char (sextet3 b c) (b64char (sextet4 c) (b2a_base64 rest ++ tail)))).
    fold (b64char (sextet1 a) (b64char (sextet2 a b)
            (b64char (sextet3 b c) (b64char (sextet4 c) (b2a_base64 rest ++ tail))))).
    rewrite a2b_group, IH. now rewrite <- app_assoc.
Qed.

Lemma b2a_then_is_ascii (tail : string) (data : list byte) :
  is_ascii_text tail = true ->
  is_ascii_text (b2a_base64 data ++ tail) = true.
Proof.
  intros Htail.
  induction data as [| a | a b | a b c rest IH] using list_ind3.
  - exact Htail.
  - rewrite b2a_one. unfold b64char. cbn [append is_ascii_text].
    destruct (table_round_trip _ (sextet1_range a)) as (_ & _ & ->).
    destruct (table_round_trip _ (sextet2_last_range a)) as (_ & _ & ->).
    exact Htail.
  - rewrite b2a_two. unfold b64char. cbn [append is_ascii_text].
    destruct (table_round_trip _ (sextet1_range a)) as (_ & _ & ->).
    destruct (table_round_trip _ (sextet2_range a b)) as (_ & _ & ->).
    destruct (table_round_trip _ (sextet3_last_range b)) as (_ & _ & ->).
    exact Htail.
  - rewrite b2a_group. unfold b64char. cbn [append is_ascii_text].
    destruct (table_round_trip _ (sextet1_range a)) as (_ & _ & ->).
    destruct (table_round_trip _ (sextet2_range a b)) as (_ & _ & ->).
    destruct (table_round_trip _ (sextet3_range b c)) as (_ & _ & ->).
    destruct (table_round_trip _ (sextet4_range c)) as (_ & _ & ->).
    exact IH.
Qed.

(** X22. The decoder of [get_liveview] tolerates what follows the encoded
    text: for every byte sequence, the base64 text followed by any ASCII
    characters outside the alphabet (line ends, blanks, further [=]) decodes
    to the bytes; without anything after it, too. *)
Theorem b64decode_ignores_trailing_text (data : list byte) (tail : string) :
  all_chars outside_alphabet tail = true ->
  is_ascii_text tail = true ->
  b64decode (b64encode_text data ++ tail) = inr data.
Proof.
  intros Hout Hascii. unfold b64decode, b64encode_text, a2b_base64.
  rewrite b2a_then_is_ascii by assumption.
  apply (a2b_b2a_then tail data Hout []).
Qed.

Lemma str_length_app (a b : string) :
  String.length (a ++ b) = (String.length a + String.length b)%nat.
Proof. induction a as [| c a IH]; cbn; [reflexivity | now rewrite IH]. Qed.

Lemma b2a_length (data : list byte) :
  String.length (b2a_base64 data) = (4 * ((List.length data + 2) / 3))%nat.
Proof.
  induction data as [| a | a b | a b c rest IH] using list_ind3;
    try reflexivity.
  rewrite b2a_group. unfold b64char. cbn [String.length List.length].
  rewrite IH.
  replace (S (S (S (List.length rest))) + 2)%nat
    with ((List.length rest + 2) + 1 * 3)%nat by lia.
  rewrite Nat.div_add by lia. lia.
Qed.

Section LiveViewText.
Context {D : Type} `{Camera D}.
Variable camera : CanonCamera.

(** X23. The text [get_liveview_image] returns for a frame of [n] bytes is
    ASCII and has four characters for every three bytes, the last group
    padded, and one newline: [4 * ceil(n / 3) + 1] characters. *)
Theorem get_liveview_image_text_shape (w : world D) (resp : response) (d' : D) :
  handle (liveview_fetch camera) (dev w) = (inr resp, d') ->
  is_error_status resp = false ->
  exists image_data,
    get_liveview_image camera w
    = (inr image_data, after w d' [liveview_fetch camera])
    /\ String.length image_data
       = (4 * ((List.length (content resp) + 2) / 3) + 1)%nat
    /\ is_ascii_text image_data = true.
Proof.
  intros Hh Hs. exists (b64encode_text (content resp) ++ newline).
  split; [| split].
  - now apply get_liveview_image_run.
  - rewrite str_length_app. unfold b64encode_text. now rewrite b2a_length.
  - apply b2a_is_ascii.
Qed.
End LiveViewText.

Section AddressFacts.
Context {D : Type} `{Camera D}.

(** X24. The address of the camera.  A non-empty [ip] argument is used as
    it is, whatever [CANON_IP] holds; an empty one counts as absent and
    [CANON_IP] is used; with neither, no error is raised: the client is built
    on the host [None] and its reads are sent to it. *)
Theorem camera_address_fallback (c : ascii) (s : string) (port : Z)
    (env_CANON_IP : option string) (setting_name : string) (w : world D) :
  base_url (CanonCamera_init (Some (String c s)) port env_CANON_IP)
  = "http://" ++ String c s ++ ":" ++ str_of_int port
  /\ CanonCamera_init (Some "") port env_CANON_IP
     = CanonCamera_init None port env_CANON_IP
  /\ ip (CanonCamera_init None port env_CANON_IP) = env_CANON_IP
  /\ exists r,
       trace (snd (get_setting (server_camera None) setting_name w))
       = (trace w ++ [r])%list
       /\ req_url r
          = "http://None:8080/ccapi/ver100/shooting/settings/" ++ setting_name.
Proof.
  repeat split.
  exists (setting_read (server_camera None) setting_name).
  split; [apply get_setting_trace | reflexivity].
Qed.
End AddressFacts.

Lemma unusable_record_raises (current : json) (value : string) :
  unusable_record current ->
  exists msg, value_rejected current value = inl (OtherException msg).
Proof.
  intros [Hscalar | (rec & ability & -> & Hab & Hscalar)].
  - destruct current; try discriminate; eexists; reflexivity.
  - unfold value_rejected. cbn. rewrite Hab. cbn.
    destruct ability; try discriminate; eexists; reflexivity.
Qed.

Section MalformedAnswers.
Context {D : Type} `{Camera D} `{PyRepr}.
Variable camera : CanonCamera.

(** X25. A record on which the value cannot be tested stops the write.  When
    the read is answered with [null], a boolean or a number, or with a record
    whose [ability] is one of these, [set_camera_setting] answers
    [internal_error] and writes nothing. *)
Theorem set_camera_setting_unusable_record
    (setting value : string) (w : world D) (current : json) (d1 : D) :
  In setting valid_settings_write ->
  value <> "" ->
  answers (setting_read camera setting) w current d1 ->
  unusable_record current ->
  exists msg,
    set_camera_setting camera setting value w
    = (json_dumps (error_record "internal_error" msg),
       after w d1 [setting_read camera setting]).
Proof.
  intros Hin Hne Hans Hbad. apply str_in_list_In in Hin.
  destruct (unusable_record_raises current value Hbad) as [m Hrej].
  rewrite set_camera_setting_delegates by assumption.
  unfold set_setting, bind. rewrite (get_setting_run _ _ _ _ _ Hans), Hrej.
  eexists. reflexivity.
Qed.

(** X26. When the read of all settings is answered with [null], a boolean or
    a number, [get_camera_settings("all")] answers [internal_error] after its
    one GET: the projection cannot look a key up in it. *)
Theorem get_camera_settings_all_not_a_document
    (w : world D) (doc : json) (d' : D) :
  answers (get_request camera settings_path) w doc d' ->
  is_scalar doc = true ->
  exists msg,
    get_camera_settings camera "all" w
    = (json_dumps (error_record "internal_error" msg),
       after w d' [get_request camera settings_path]).
Proof.
  intros Hans Hscalar.
  unfold get_camera_settings, get_camera_settings_try.
  cbn [String.eqb Ascii.eqb Bool.eqb]. unfold bind.
  rewrite (get_all_settings_run _ _ _ _ Hans).
  destruct doc; try discriminate; eexists; reflexivity.
Qed.
End MalformedAnswers.

(* ===================================================================== *)
(** * The further properties at concrete inputs *)
(* ===================================================================== *)

Lemma rig_answers (r : request) (doc : json) :
  req_method r = GET ->
  @answers _ Rig.camera_rig r (Rig.serving doc) doc (dev (Rig.serving doc)).
Proof.
  intros Hget. eexists. unfold handle, Rig.camera_rig, Rig.answer. cbn.
  rewrite Hget. split; [reflexivity | split; reflexivity].
Defined.

Lemma rig_down_fails (r : request) :
  @read_fails _ Rig.camera_rig r Rig.down
    (RequestException "Connection refused") (dev Rig.down).
Proof. left. left. reflexivity. Defined.

(** A camera off line, asked for [iso]. *)
Lemma get_camera_settings_failed_read_witness :
  @get_camera_settings _ Rig.camera_rig Stub.repr_stub Rig.cam "iso" Rig.down
  = (json_dumps (error_record "camera_communication_error"
                   "Failed to communicate with camera: Connection refused"),
     after Rig.down (dev Rig.down) [setting_read Rig.cam "iso"]).
Proof.
  refine (proj1 (@get_camera_settings_failed_read
            _ Rig.camera_rig Stub.repr_stub Rig.cam "iso" Rig.down _ _ _
            (rig_down_fails _))).
  right. cbn. tauto.
Defined.

(** The record of [av] comes with a [setting_name] of the camera's own. *)
Lemma get_camera_settings_names_the_record_witness :
  @get_camera_settings _ Rig.camera_rig Stub.repr_stub Rig.cam "av"
    (Rig.serving (JObj Rig.av_record))
  = (json_dumps (JObj [("value", JStr "5.6"); ("setting_name", JStr "av");
                       ("ability", JArr [JStr "4.0"; JStr "5.6"; JStr "8.0"])]),
     after (Rig.serving (JObj Rig.av_record))
       (dev (Rig.serving (JObj Rig.av_record))) [setting_read Rig.cam "av"]).
Proof.
  refine (proj1 (@get_camera_settings_names_the_record
            _ Rig.camera_rig Stub.repr_stub Rig.cam "av" _ Rig.av_record _ _
            (rig_answers (setting_read Rig.cam "av") _ eq_refl))).
  cbn. tauto.
Defined.

(** The camera answers the read of [av] with an empty list. *)
Lemma get_camera_settings_record_not_object_witness :
  exists msg,
    @get_camera_settings _ Rig.camera_rig Stub.repr_stub Rig.cam "av"
      (Rig.serving (JArr []))
    = (json_dumps (error_record "internal_error" msg),
       after (Rig.serving (JArr [])) (dev (Rig.serving (JArr [])))
         [setting_read Rig.cam "av"]).
Proof.
  refine (@get_camera_settings_record_not_object
            _ Rig.camera_rig Stub.repr_stub Rig.cam "av" _ (JArr []) _ _
            (rig_answers (setting_read Rig.cam "av") _ eq_refl) eq_refl).
  cbn. tauto.
Defined.

(** A camera that answers 503 to everything, asked to set [iso]. *)
Lemma set_camera_setting_failed_read_witness :
  trace (snd (@set_camera_setting _ Rig.camera_rig Stub.repr_stub Rig.cam
                "iso" "200" Rig.busy))
  = [setting_read Rig.cam "iso"].
Proof.
  rewrite (@set_camera_setting_failed_read
             _ Rig.camera_rig Stub.repr_stub Rig.cam "iso" "200" Rig.busy
             (RequestException "503 Server Error: Service Unavailable for url: http://10.0.0.7:8080/ccapi/ver100/shooting/settings/iso")
             (dev Rig.busy)).
  - reflexivity.
  - cbn. tauto.
  - discriminate.
  - left. right. eexists. split; [reflexivity | split; reflexivity].
Defined.

(** The value is listed and the camera refuses the write with 503. *)
Lemma set_camera_setting_failed_write_witness :
  error_of (fst (@set_camera_setting _ Rig.camera_rig Stub.repr_stub Rig.cam
                   "iso" "200" (Rig.refusing_writes (JObj Stub.iso_record))))
  = Some ("camera_communication_error",
          "Failed to communicate with camera: 503 Server Error: Service Unavailable for url: http://10.0.0.7:8080/ccapi/ver100/shooting/settings/iso").
Proof.
  rewrite (@set_camera_setting_failed_write
             _ Rig.camera_rig Stub.repr_stub Rig.cam "iso" "200"
             (Rig.refusing_writes (JObj Stub.iso_record))
             (JObj Stub.iso_record)
             (dev (Rig.refusing_writes (JObj Stub.iso_record)))
             (snd (Rig.answer (setting_write Rig.cam "iso" "200")
                     (dev (Rig.refusing_writes (JObj Stub.iso_record)))))
             (RequestException "503 Server Error: Service Unavailable for url: http://10.0.0.7:8080/ccapi/ver100/shooting/settings/iso")).
  - reflexivity.
  - cbn. tauto.
  - discriminate.
  - eexists. split; [reflexivity | split; reflexivity].
  - reflexivity.
  - right. eexists. split; [reflexivity | split; reflexivity].
Defined.

(** The value is listed and the camera accepts the write. *)
Lemma set_camera_setting_success_witness :
  fst (@set_camera_setting _ Rig.camera_rig Stub.repr_stub Rig.cam "av" "8.0"
         (Rig.serving (JObj Rig.av_record)))
  = json_dumps (update_record "av" (JStr "5.6") "8.0").
Proof.
  rewrite (proj1 (@set_camera_setting_success
             _ Rig.camera_rig Stub.repr_stub Rig.cam "av" "8.0"
             (Rig.serving (JObj Rig.av_record)) Rig.av_record
             (dev (Rig.serving (JObj Rig.av_record))) _ _
             ltac:(cbn; tauto) ltac:(discriminate)
             (rig_answers (setting_read Rig.cam "av") _ eq_refl) eq_refl eq_refl eq_refl)).
  reflexivity.
Defined.

(** The camera answers the read of [tv] with an empty list and accepts the
    write: the value is written and the tool answers [internal_error]. *)
Lemma set_camera_setting_writes_before_it_fails_witness :
  exists msg,
    @set_camera_setting _ Rig.camera_rig Stub.repr_stub Rig.cam "tv" "1/100"
      (Rig.serving (JArr []))
    = (json_dumps (error_record "internal_error" msg),
       after (Rig.serving (JArr []))
         (snd (Rig.answer (setting_write Rig.cam "tv" "1/100")
                 (dev (Rig.serving (JArr [])))))
         [setting_read Rig.cam "tv"; setting_write Rig.cam "tv" "1/100"]).
Proof.
  refine (@set_camera_setting_writes_before_it_fails
            _ Rig.camera_rig Stub.repr_stub Rig.cam "tv" "1/100"
            (Rig.serving (JArr [])) (JArr []) _ _ _
            _ _ (rig_answers (setting_read Rig.cam "tv") _ eq_refl) eq_refl eq_refl eq_refl eq_refl).
  - cbn. tauto.
  - discriminate.
Defined.

(** The ability list holds the numbers 100 and 200: the string 100 is
    refused. *)
Lemma set_camera_setting_ability_without_strings_witness :
  error_of (fst (@set_camera_setting _ Rig.camera_rig Stub.repr_stub Rig.cam
                   "iso" "100" (Rig.serving (JObj Rig.numeric_iso))))
  = Some ("invalid_parameter",
          "Invalid value '100' for iso. Available options: [100, 200]").
Proof.
  rewrite (@set_camera_setting_ability_without_strings
             _ Rig.camera_rig Stub.repr_stub Rig.cam "iso" "100"
             (Rig.serving (JObj Rig.numeric_iso)) Rig.numeric_iso
             [JNum (PyInt 100); JNum (PyInt 200)]
             (dev (Rig.serving (JObj Rig.numeric_iso)))
             ltac:(cbn; tauto) ltac:(discriminate)
             (rig_answers (setting_read Rig.cam "iso") _ eq_refl) eq_refl eq_refl).
  reflexivity.
Defined.

(** The camera answers the start of the live view with 503. *)
Lemma init_live_view_returns_error_status_witness :
  fst (@init_live_view _ Rig.camera_rig Rig.cam "small" "keep" Rig.busy) = inr 503.
Proof.
  rewrite (proj1 (@init_live_view_returns_error_status
             _ Rig.camera_rig Rig.cam "small" "keep" Rig.busy
             (Rig.respond (liveview_init Rig.cam "small" "keep") 503 JNull []) (dev Rig.busy)
             eq_refl eq_refl)).
  reflexivity.
Defined.

(** The probe against a camera off line: one GET, no POST. *)
Lemma main_probe_failed_read_witness :
  @main_probe _ Rig.camera_rig Rig.cam Rig.down
  = (NotConnected (RequestException "Connection refused"),
     after Rig.down (dev Rig.down) [get_request Rig.cam settings_path]).
Proof.
  exact (@main_probe_failed_read _ Rig.camera_rig Rig.cam Rig.down _ _
           (rig_down_fails _)).
Defined.

(** The probe against a camera that refuses the live view with 503. *)
Lemma main_probe_ignores_liveview_status_witness :
  fst (@main_probe _ Rig.camera_rig Rig.cam Rig.no_liveview) = Connected.
Proof.
  rewrite (@main_probe_ignores_liveview_status
             _ Rig.camera_rig Rig.cam Rig.no_liveview (JObj [])
             (dev Rig.no_liveview) (dev Rig.no_liveview)
             (Rig.respond (liveview_init Rig.cam "small" "keep") 503 JNull [])).
  - reflexivity.
  - eexists. split; [reflexivity | split; reflexivity].
  - reflexivity.
Defined.

Lemma rig_busy_fetch_fails :
  @request_fails _ Rig.camera_rig (liveview_fetch Rig.cam) Rig.busy
    (RequestException "503 Server Error: Service Unavailable for url: http://10.0.0.7:8080/ccapi/ver100/shooting/liveview/flip")
    (dev Rig.busy).
Proof. right. eexists. split; [reflexivity | split; reflexivity]. Defined.

(** The fetch of the frame answered with 503. *)
Lemma get_liveview_failed_fetch_witness :
  fst (@get_liveview _ Rig.camera_rig _ StubPIL.pil_area Rig.cam Rig.busy)
  = Some (ErrorText (json_dumps (error_record "camera_communication_error"
      "Failed to communicate with camera: 503 Server Error: Service Unavailable for url: http://10.0.0.7:8080/ccapi/ver100/shooting/liveview/flip"))).
Proof.
  rewrite (proj1 (@get_liveview_failed_fetch
             _ Rig.camera_rig _ StubPIL.pil_area Rig.cam Rig.busy _ _
             rig_busy_fetch_fails)).
  reflexivity.
Defined.

(** A frame the library cannot open. *)
Lemma get_liveview_unreadable_frame_witness :
  fst (@get_liveview _ Rig.camera_rig _ Rig.pil_unreadable Rig.cam (Rig.serving JNull))
  = Some (ErrorText (json_dumps (error_record "internal_error"
            "Unexpected error: cannot identify image file"))).
Proof.
  rewrite (@get_liveview_unreadable_frame
             _ Rig.camera_rig _ Rig.pil_unreadable Rig.cam (Rig.serving JNull)
             (Rig.respond (liveview_fetch Rig.cam) 200 JNull (Rig.frame (dev (Rig.serving JNull))))
             (dev (Rig.serving JNull))
             (OtherException "cannot identify image file")
             eq_refl eq_refl eq_refl).
  - reflexivity.
  - discriminate.
Defined.


(** A PNG of the 100 x 100 frame with a budget of one megabyte. *)
Lemma compress_not_jpeg_single_test_witness :
  @compress_image_to_target_size _ StubPIL.pil_area StubPIL.square 1 "png"
  = Some (inr (StubPIL.zeros 10000)).
Proof.
  rewrite (proj2 (proj2 (@compress_not_jpeg_single_test
             _ StubPIL.pil_area StubPIL.square 1 "png" eq_refl))).
  vm_compute. reflexivity.
Defined.

(** A frame of 7 x 120 pixels: the last size has width 0. *)
Lemma second_phase_sizes_exact_witness :
  scaled_sizes (7, 120) resize_scales
  = inr [(6, 108); (5, 96); (4, 84); (4, 72); (3, 60); (2, 48); (2, 36);
         (1, 24); (0, 12)].
Proof.
  refine (proj1 (@second_phase_sizes_exact 7 120 _ _)); vm_compute; split; congruence.
Defined.


(** Three bytes, followed by a carriage return, a newline and a blank. *)
Lemma b64decode_ignores_trailing_text_witness :
  b64decode (b64encode_text ["001"%byte; "002"%byte; "003"%byte]
             ++ String "013"%char (String "010"%char (String " "%char EmptyString)))
  = inr ["001"%byte; "002"%byte; "003"%byte].
Proof.
  exact (@b64decode_ignores_trailing_text
           ["001"%byte; "002"%byte; "003"%byte]
           (String "013"%char (String "010"%char (String " "%char EmptyString)))
           eq_refl eq_refl).
Defined.

(** The four bytes of the rig's frame: eight characters and a newline. *)
Lemma get_liveview_image_text_shape_witness :
  exists image_data,
    fst (@get_liveview_image _ Rig.camera_rig Rig.cam (Rig.serving JNull))
    = inr image_data
    /\ String.length image_data = 9%nat.
Proof.
  destruct (@get_liveview_image_text_shape
              _ Rig.camera_rig Rig.cam (Rig.serving JNull)
              (Rig.respond (liveview_fetch Rig.cam) 200 JNull (Rig.frame (dev (Rig.serving JNull))))
              (dev (Rig.serving JNull)) eq_refl eq_refl)
    as (image_data & Hrun & Hlen & _).
  exists image_data. split; [now rewrite Hrun | exact Hlen].
Defined.

(** The camera answers the read of [iso] with a record whose [ability] is
    the number 3. *)
Lemma set_camera_setting_unusable_record_witness :
  exists msg,
    @set_camera_setting _ Rig.camera_rig Stub.repr_stub Rig.cam "iso" "200"
      (Rig.serving (JObj [("ability", JNum (PyInt 3))]))
    = (json_dumps (error_record "internal_error" msg),
       after (Rig.serving (JObj [("ability", JNum (PyInt 3))]))
         (dev (Rig.serving (JObj [("ability", JNum (PyInt 3))])))
         [setting_read Rig.cam "iso"]).
Proof.
  refine (@set_camera_setting_unusable_record
            _ Rig.camera_rig Stub.repr_stub Rig.cam "iso" "200" _
            (JObj [("ability", JNum (PyInt 3))]) _ _ _
            (rig_answers (setting_read Rig.cam "iso") _ eq_refl) _).
  - cbn. tauto.
  - discriminate.
  - right. exists [("ability", JNum (PyInt 3))], (JNum (PyInt 3)).
    split; [reflexivity | split; reflexivity].
Defined.

(** The camera answers the read of all settings with [null]. *)
Lemma get_camera_settings_all_not_a_document_witness :
  exists msg,
    @get_camera_settings _ Rig.camera_rig Stub.repr_stub Rig.cam "all"
      (Rig.serving JNull)
    = (json_dumps (error_record "internal_error" msg),
       after (Rig.serving JNull) (dev (Rig.serving JNull))
         [get_request Rig.cam settings_path]).
Proof.
  exact (@get_camera_settings_all_not_a_document
           _ Rig.camera_rig Stub.repr_stub Rig.cam (Rig.serving JNull) JNull _
           (rig_answers (get_request Rig.cam settings_path) _ eq_refl) eq_refl).
Defined.
